(** * EmbedStaticAssets: the asset-embedding encoder and its generated decoder

    A shallow embedding of [Resources/EmbedStaticAssets.py].  The script walks a
    source folder and writes one C++ translation unit that holds, per file, a
    gzip-compressed byte array (as a string literal), the MD5 of the original
    content, and a dispatch routine [ReadStaticAsset].

    The development has three layers:
    - the Python side, as a small state-and-exception monad over file objects
      ([EncodeFileAsCString], [WriteChecksum], [main]);
    - the generated C++ text, as a syntax tree ([cxx_module]) with a printer
      that is proved to produce exactly what [main] writes;
    - the C++ side: the lexical value of a sequence of string literals, array
      initialisation, [sizeof], and the two generated routines [Uncompress]
      and [ReadStaticAsset].

    gzip and MD5 are external collaborators and are Section variables. *)

From Stdlib Require Import List String Ascii NArith PeanoNat Bool Lia.
From Stdlib Require Import Strings.Byte.
From Stdlib Require Import DecimalString DecimalN Permutation.
Import ListNotations.

Local Open Scope list_scope.
Local Open Scope string_scope.

(** ** Bytes and text *)

(** Python [bytes] and C++ binary buffers. *)
Definition bytes := list byte.

(** The double quote, the backslash and the newline, which a Rocq string
    cannot hold verbatim or holds without escape. *)
Definition dquote : ascii := "034"%char.
Definition backslash : ascii := "092"%char.
Definition newline : ascii := "010"%char.

Definition str (c : ascii) : string := String c EmptyString.
Definition nl : string := str newline.

(** Python's [ord] and [chr] on the Latin-1 range. *)
Definition ord (c : ascii) : N := N_of_ascii c.
Definition chr (i : N) : string := str (ascii_of_N i).

Fixpoint zeros (n : nat) : string :=
  match n with
  | O => EmptyString
  | S n' => String "0" (zeros n')
  end.

(** Zero padding on the left to a minimal width, as the [0w] format flag. *)
Definition zero_pad (width : nat) (s : string) : string :=
  zeros (width - String.length s) ++ s.

(** ['%d' % n] for a non-negative [n]. *)
Definition format_d (n : N) : string := NilZero.string_of_uint (N.to_uint n).

(** ['%06d' % n]. *)
Definition format_06d (n : N) : string := zero_pad 6 (format_d n).

Fixpoint octal_digits (fuel : nat) (n : N) (acc : string) : string :=
  match fuel with
  | O => acc
  | S fuel' =>
      let acc' := String (ascii_of_N (48 + n mod 8)) acc in
      if (n / 8 =? 0)%N then acc' else octal_digits fuel' (n / 8) acc'
  end.

(** ['{0:o}'.format(n)]: the octal digits of [n], most significant first. *)
Definition format_o (n : N) : string :=
  octal_digits (S (N.to_nat (N.log2 n))) n EmptyString.

(** ['{0:03o}'.format(n)]. *)
Definition format_03o (n : N) : string := zero_pad 3 (format_o n).

(** [len(content)] *)
Definition len (content : bytes) : N := N.of_nat (List.length content).

(** The codes of [Orthanc::ErrorCode] the generated code names; the other
    enumerators, which only the external decompressor can throw, are kept
    apart by their number. *)
Inductive ErrorCode : Type :=
| ErrorCode_InexistentItem
| ErrorCode_CorruptedFile
| ErrorCode_Other (code : N).

(** How a call of a generated routine ends: it fills [target] and returns, or
    it throws an [OrthancException]. *)
Inductive cxx_outcome : Type :=
| Returns (target : bytes)
| Throws (code : ErrorCode).

(** ** Stand-ins for the external collaborators

    A container format that stores the payload behind two magic bytes, and a
    16-byte digest that repeats the sum of the bytes.  They are not gzip and
    MD5; they only show that what is assumed of gzip and MD5 can be met. *)

Definition store_compress (content : bytes) : bytes := x1f :: x8b :: content.

Definition store_uncompress (data : bytes) : cxx_outcome :=
  match data with
  | x1f :: x8b :: content => Returns content
  | _ => Throws (ErrorCode_Other 0)
  end.

Definition sum_digest (content : bytes) : bytes :=
  let s := fold_left (fun acc b => ((acc + Byte.to_N b) mod 256)%N) content 0%N in
  match Byte.of_N s with
  | Some b => repeat b 16
  | None => repeat x00 16
  end.

(** ** The Python side: file objects, the global [g], exceptions *)

Inductive PyExn : Type :=
| Exception (msg : string)
| NameError (name : string)
| ValueError (msg : string)
| OSError (path : string)
| UnicodeEncodeError (text : string).

(** A text file object opened for writing: the path it was opened on, whether
    it has been closed, and what has been written through it. *)
Record file_object : Type := mkFile {
  fo_name : string;
  fo_closed : bool;
  fo_data : string
}.

(** The interpreter state the script touches: the file objects created so far
    (a file object is referred to by its position) and the module-level name
    [g], unbound until the [with] statement binds it. *)
Record store : Type := mkStore {
  st_files : list file_object;
  st_g : option nat
}.

Definition Py (A : Type) : Type := store -> (PyExn + A) * store.

Definition ret {A} (a : A) : Py A := fun s => (inr a, s).

Definition raise {A} (e : PyExn) : Py A := fun s => (inl e, s).

Definition bind {A B} (c : Py A) (k : A -> Py B) : Py B :=
  fun s =>
    match c s with
    | (inl e, s') => (inl e, s')
    | (inr a, s') => k a s'
    end.

Notation "x <- c1 ;; c2" := (bind c1 (fun x => c2))
  (at level 61, c1 at next level, right associativity).
Notation "c1 ;; c2" := (bind c1 (fun _ => c2))
  (at level 61, right associativity).

Fixpoint update_nth {A} (n : nat) (f : A -> A) (l : list A) : list A :=
  match l, n with
  | [], _ => []
  | x :: r, O => f x :: r
  | x :: r, S n' => x :: update_nth n' f r
  end.

Definition append_data (text : string) (fo : file_object) : file_object :=
  mkFile (fo_name fo) (fo_closed fo) (fo_data fo ++ text).

Definition mark_closed (fo : file_object) : file_object :=
  mkFile (fo_name fo) true (fo_data fo).

(** [f.write(text)] of a text that the encoding of the file can represent,
    to a device that takes it.  A position that names no file object cannot
    arise from the script; it is answered like a closed file.  The one text
    of the script that the encoding may not represent is a relative path; it
    is written by [g_write_path]. *)
Definition write (f : nat) (text : string) : Py unit :=
  fun s =>
    match nth_error (st_files s) f with
    | Some fo =>
        if fo_closed fo
        then (inl (ValueError "I/O operation on closed file."), s)
        else (inr tt, mkStore (update_nth f (append_data text) (st_files s)) (st_g s))
    | None => (inl (ValueError "I/O operation on closed file."), s)
    end.

(** [open(name, 'w')] of a file that can be created or truncated: a fresh,
    empty, open file object.  Whether it can is asked of the operating system
    by [with_open_as_g], which raises otherwise. *)
Definition open_w (name : string) : Py nat :=
  fun s =>
    (inr (List.length (st_files s)),
     mkStore (st_files s ++ [mkFile name false EmptyString])%list (st_g s)).

Definition close (f : nat) : Py unit :=
  fun s => (inr tt, mkStore (update_nth f mark_closed (st_files s)) (st_g s)).

(** Reading the global name [g]. *)
Definition global_g : Py nat :=
  fun s =>
    match st_g s with
    | Some f => (inr f, s)
    | None => (inl (NameError "g"), s)
    end.

Definition bind_global_g (f : nat) : Py unit :=
  fun s => (inr tt, mkStore (st_files s) (Some f)).

(** [with open(name, 'w') as g: body], once the file is open: the file object
    is closed when the block is left, also when it is left by an exception,
    which then propagates. *)
Definition with_open_w_as_g {A} (name : string) (body : Py A) : Py A :=
  fun s =>
    match open_w name s with
    | (inl e, s1) => (inl e, s1)
    | (inr f, s1) =>
        match (bind_global_g f ;; body) s1 with
        | (r, s2) => (r, snd (close f s2))
        end
    end.

(** [for x in l: body], threading the variables the body assigns. *)
Fixpoint for_each {A S} (body : A -> S -> Py S) (l : list A) (s : S) : Py S :=
  match l with
  | [] => ret s
  | x :: r => s' <- body x s ;; for_each body r s'
  end.

(** The content of the file [name] on disk: what was written through the last
    file object opened on it. *)
Definition file_content (s : store) (name : string) : option string :=
  match find (fun fo => String.eqb (fo_name fo) name) (rev (st_files s)) with
  | Some fo => Some (fo_data fo)
  | None => None
  end.

(** A Python [dict] with string keys, held in insertion order; assigning to a
    key already present keeps its position.  The order in which [items()]
    yields the entries is another matter: see [dict_items]. *)
Definition dict := list (string * string).

Fixpoint dict_set (k v : string) (d : dict) : dict :=
  match d with
  | [] => [(k, v)]
  | (k', v') :: r =>
      if String.eqb k' k then (k', v) :: r else (k', v') :: dict_set k v r
  end.

(** What the script asks of the operating system. *)
Record OS : Type := mkOS {
  os_path_isdir : string -> bool;
  os_walk : string -> list (string * list string * list string);
  os_path_join : string -> string -> string;
  os_path_relpath : string -> string -> string;
  (** [open(p, 'rb').read()]; [None] stands for the [OSError] of a file that
      cannot be read. *)
  read_binary : string -> option bytes;
  (** Whether [open(p, 'w')] succeeds: the file can be created or truncated. *)
  os_open_w : string -> bool;
  (** Whether the encoding of a text file opened for writing can represent
      a text; a file name that was not decodable cannot be written back. *)
  os_encodable : string -> bool
}.

(** [with open(name, 'w') as g: body].  When the file cannot be opened the
    [OSError] is raised before the block is entered: no file object exists
    and [g] stays as it was. *)
Definition with_open_as_g {A} (os : OS) (name : string) (body : Py A) : Py A :=
  if os_open_w os name then with_open_w_as_g name body
  else raise (OSError name).

(** The entries of a dictionary in the order in which [items()] yields them:
    sorted by a rank of the keys, entries of equal rank in insertion order.
    From Python 3.7 on the order is the insertion order (a constant rank);
    before, it is that of the hash table, which is left free here: every
    order of distinct keys is the sorted order for some rank. *)
Fixpoint insert_by_rank (rank : string -> N) (e : string * string) (d : dict) : dict :=
  match d with
  | [] => [e]
  | e' :: r =>
      if (rank (fst e) <=? rank (fst e'))%N then e :: d
      else e' :: insert_by_rank rank e r
  end.

Fixpoint dict_items (rank : string -> N) (d : dict) : dict :=
  match d with
  | [] => []
  | e :: r => insert_by_rank rank e (dict_items rank r)
  end.

(** ** The encoder *)

(** [''.join(l)] *)
Definition join (l : list string) : string :=
  fold_right append EmptyString l.

Definition lines (l : list string) : string :=
  fold_right (fun line rest => line ++ nl ++ rest) EmptyString l.

(** The fixed text written first: the includes and the generated routine
    [Uncompress]. *)
Definition preamble : string :=
  nl ++ lines [
    "#include <stdint.h>";
    "#include <Compression/GzipCompressor.h>";
    "#include <OrthancException.h>";
    "#include <Toolbox.h>";
    "";
    "static void Uncompress(std::string& target, const void* data, size_t size, const std::string& md5Expected)";
    "{";
    "  Orthanc::GzipCompressor compressor;";
    "  compressor.Uncompress(target, data, size);";
    "  std::string md5Actual;";
    "  Orthanc::Toolbox::ComputeMD5(md5Actual, target);";
    "  if (md5Actual != md5Expected)";
    "  {";
    "    throw Orthanc::OrthancException(Orthanc::ErrorCode_CorruptedFile);";
    "  }";
    "}";
    ""
  ].

(** The body of [for c in content] in [EncodeFileAsCString], on Python 3 where
    iterating over [bytes] yields integers. *)
Fixpoint encode_loop (f : nat) (content : bytes) (column : nat) : Py unit :=
  match content with
  | [] => ret tt
  | c :: rest =>
      let i := Byte.to_N c in
      (if (i <? 32)%N || (127 <=? i)%N || (i =? ord "?")%N
       then write f (str backslash ++ format_03o i)
       else if existsb (N.eqb i) [ord dquote; ord backslash]
       then write f (str backslash ++ chr i)
       else write f (chr i)) ;;
      let column := (column + 1)%nat in
      if (120 <=? column)%nat
      then write f (str dquote ++ nl ++ "  " ++ str dquote) ;; encode_loop f rest 0
      else encode_loop f rest column
  end.

Definition EncodeFileAsCString (f : nat) (variable : string) (content : bytes) : Py unit :=
  write f ("static const uint8_t " ++ variable ++ "[" ++ format_d (len content + 1)
           ++ "] = " ++ nl ++ "  " ++ str dquote) ;;
  encode_loop f content 0 ;;
  write f (str dquote ++ ";" ++ nl ++ nl).

(** Lowercase hexadecimal, two digits per byte. *)
Definition hex_digit (n : N) : ascii :=
  if (n <? 10)%N then ascii_of_N (48 + n) else ascii_of_N (87 + n).

Definition hex_byte (b : byte) : string :=
  String (hex_digit (Byte.to_N b / 16)) (String (hex_digit (Byte.to_N b mod 16)) EmptyString).


(** ** The generated translation unit, as syntax *)

(** The two forms of declaration the encoder writes.  [init] is the text of
    the initialiser: one string literal, or several adjacent ones.
    - [static const uint8_t name[size] = init;]
    - [static const char* name = init;] *)
Inductive cxx_decl : Type :=
| ArrayDecl (name : string) (size : N) (init : string)
| CStrDecl (name : string) (init : string).

(** One conditional of [ReadStaticAsset], with the arguments of its call:
    [if (path == literal) { Uncompress(target, data, sizeof(array) - minus, md5); return; }] *)
Record cxx_branch : Type := mkBranch {
  br_literal : string;
  br_data : string;
  br_sizeof : string;
  br_minus : N;
  br_md5 : string
}.

Record cxx_module : Type := mkModule {
  m_decls : list cxx_decl;
  m_branches : list cxx_branch
}.

Definition render_decl (d : cxx_decl) : string :=
  match d with
  | ArrayDecl name size init =>
      "static const uint8_t " ++ name ++ "[" ++ format_d size ++ "] = " ++ nl ++ "  "
      ++ init ++ ";" ++ nl ++ nl
  | CStrDecl name init =>
      "static const char* " ++ name ++ " = " ++ init ++ ";" ++ nl ++ nl
  end.

Definition render_branch (b : cxx_branch) : string :=
  "  if (path == " ++ br_literal b ++ ")" ++ nl
  ++ "  {" ++ nl
  ++ "    Uncompress(target, " ++ br_data b ++ ", sizeof(" ++ br_sizeof b ++ ") - "
  ++ format_d (br_minus b) ++ ", " ++ br_md5 b ++ ");" ++ nl
  ++ "    return;" ++ nl
  ++ "  }" ++ nl ++ nl.

Definition render (m : cxx_module) : string :=
  preamble
  ++ join (map render_decl (m_decls m))
  ++ "void ReadStaticAsset(std::string& target, const std::string& path)" ++ nl
  ++ "{" ++ nl
  ++ join (map render_branch (m_branches m))
  ++ "  throw Orthanc::OrthancException(Orthanc::ErrorCode_InexistentItem, "
  ++ str dquote ++ "Unknown OHIF resource: " ++ str dquote ++ " + path);" ++ nl
  ++ "}" ++ nl.

(** ** The C++ side: the value of string literals

    The value of a sequence of adjacent narrow string literals, as the
    translation phases give it: escape sequences are replaced inside each
    literal, then adjacent literals are concatenated.  The simple escapes,
    octal escapes of one to three digits and hexadecimal escapes are read.
    [None] is a text without a value here: one that compilers do not accept
    as such a sequence (a value that does not fit a byte, a line feed inside
    a literal, an unterminated literal), or one that lies outside the
    fragment on which the dialects and the compilers agree (an escape the
    standard leaves to the implementation, a carriage return inside a
    literal, which some compilers read as the end of the line, a backslash
    at the end of a line, universal character names, prefixes, raw literals,
    comments, and every text that holds a trigraph, which the dialects before
    C++17 replace and the later ones do not). *)

Definition carriage_return : ascii := "013"%char.

(** The third character of a trigraph. *)
Definition trigraph_char (c : ascii) : bool :=
  existsb (N.eqb (N_of_ascii c)) [61; 47; 39; 40; 41; 33; 60; 62; 45]%N.

Fixpoint has_trigraph (text : string) : bool :=
  match text with
  | EmptyString => false
  | String c rest =>
      (Ascii.eqb c "?"
       && match rest with
          | String c2 (String c3 _) => Ascii.eqb c2 "?" && trigraph_char c3
          | _ => false
          end)
      || has_trigraph rest
  end.

Definition is_space (c : ascii) : bool :=
  existsb (N.eqb (N_of_ascii c)) [32; 9; 10; 11; 12; 13]%N.

Definition octal_value (c : ascii) : option N :=
  let n := N_of_ascii c in
  if (48 <=? n)%N && (n <=? 55)%N then Some (n - 48)%N else None.

Definition hex_value (c : ascii) : option N :=
  let n := N_of_ascii c in
  if (48 <=? n)%N && (n <=? 57)%N then Some (n - 48)%N
  else if (65 <=? n)%N && (n <=? 70)%N then Some (n - 55)%N
  else if (97 <=? n)%N && (n <=? 102)%N then Some (n - 87)%N
  else None.

Definition simple_escape (c : ascii) : option byte :=
  let n := N_of_ascii c in
  if (n =? 110)%N then Some x0a          (* n *)
  else if (n =? 116)%N then Some x09     (* t *)
  else if (n =? 118)%N then Some x0b     (* v *)
  else if (n =? 98)%N then Some x08      (* b *)
  else if (n =? 114)%N then Some x0d     (* r *)
  else if (n =? 102)%N then Some x0c     (* f *)
  else if (n =? 97)%N then Some x07      (* a *)
  else if (n =? 92)%N then Some x5c      (* backslash *)
  else if (n =? 63)%N then Some x3f      (* question mark *)
  else if (n =? 39)%N then Some x27      (* single quote *)
  else if (n =? 34)%N then Some x22      (* double quote *)
  else None.

(** One more character of the value, when the code fits a byte. *)
Definition emit (code : N) (rest : option bytes) : option bytes :=
  match Byte.of_N code, rest with
  | Some b, Some r => Some (b :: r)
  | _, _ => None
  end.

Fixpoint lex_out (s : string) : option bytes :=
  match s with
  | EmptyString => Some []
  | String c s1 =>
      if is_space c then lex_out s1
      else if Ascii.eqb c dquote then lex_in s1
      else None
  end
with lex_in (s : string) : option bytes :=
  match s with
  | EmptyString => None
  | String c s1 =>
      if Ascii.eqb c dquote then lex_out s1
      else if Ascii.eqb c backslash then lex_esc s1
      else if Ascii.eqb c newline || Ascii.eqb c carriage_return then None
      else emit (N_of_ascii c) (lex_in s1)
  end
with lex_esc (s : string) : option bytes :=
  match s with
  | EmptyString => None
  | String c s1 =>
      match octal_value c with
      | Some d1 =>
          match s1 with
          | String c2 s2 =>
              match octal_value c2 with
              | Some d2 =>
                  match s2 with
                  | String c3 s3 =>
                      match octal_value c3 with
                      | Some d3 => emit (64 * d1 + 8 * d2 + d3) (lex_in s3)
                      | None => emit (8 * d1 + d2) (lex_in s2)
                      end
                  | EmptyString => emit (8 * d1 + d2) (lex_in s2)
                  end
              | None => emit d1 (lex_in s1)
              end
          | EmptyString => emit d1 (lex_in s1)
          end
      | None =>
          if Ascii.eqb c "x"
          then match s1 with
               | String c2 s2 =>
                   match hex_value c2 with
                   | Some d => lex_hex d s2
                   | None => None
                   end
               | EmptyString => None
               end
          else match simple_escape c with
               | Some b => emit (Byte.to_N b) (lex_in s1)
               | None => None
               end
      end
  end
with lex_hex (acc : N) (s : string) : option bytes :=
  match s with
  | EmptyString => None
  | String c s1 =>
      match hex_value c with
      | Some d => lex_hex (16 * acc + d) s1
      | None =>
          emit acc (if Ascii.eqb c dquote then lex_out s1
                    else if Ascii.eqb c backslash then lex_esc s1
                    else if Ascii.eqb c newline || Ascii.eqb c carriage_return then None
                    else emit (N_of_ascii c) (lex_in s1))
      end
  end.

(** The value of an initialiser or operand that is a sequence of string
    literals; the terminating zero is not part of it.  The functions above
    read a text that holds no trigraph. *)
Definition cxx_string_literals (text : string) : option bytes :=
  if has_trigraph text then None
  else match text with
       | String c s1 => if Ascii.eqb c dquote then lex_in s1 else None
       | EmptyString => None
       end.

(** ** The C++ side: arrays, [sizeof], C strings *)

(** [uint8_t name[size] = literals]: the characters of the literals and the
    terminating zero must fit; what is left of the array is zero. *)
Definition array_contents (size : N) (init : string) : option bytes :=
  match cxx_string_literals init with
  | Some value =>
      if (len value + 1 <=? size)%N
      then Some (value ++ repeat x00 (N.to_nat size - List.length value))%list
      else None
  | None => None
  end.

(** The characters a [const char*] denotes: up to the first zero. *)
Fixpoint c_str (value : bytes) : bytes :=
  match value with
  | [] => []
  | b :: r => if Byte.eqb b x00 then [] else b :: c_str r
  end.

Fixpoint bytes_eqb (a b : bytes) : bool :=
  match a, b with
  | [], [] => true
  | x :: a', y :: b' => Byte.eqb x y && bytes_eqb a' b'
  | _, _ => false
  end.

Definition decl_name (d : cxx_decl) : string :=
  match d with
  | ArrayDecl name _ _ => name
  | CStrDecl name _ => name
  end.

(** Name lookup at namespace scope. *)
Definition resolve (name : string) (decls : list cxx_decl) : option cxx_decl :=
  find (fun d => String.eqb (decl_name d) name) decls.

Definition decl_ok (d : cxx_decl) : bool :=
  match d with
  | ArrayDecl _ size init =>
      match array_contents size init with Some _ => true | None => false end
  | CStrDecl _ init =>
      match cxx_string_literals init with Some _ => true | None => false end
  end.

(** What one conditional of [ReadStaticAsset] compares the path with and what
    it hands to [Uncompress]. *)
Record branch_code : Type := mkCode {
  bc_path : bytes;
  bc_data : bytes;
  bc_md5 : bytes
}.

(** The second argument must name an array, the operand of [sizeof] an
    array, the fourth argument a [const char*].  [sizeof] of an array of
    [uint8_t] is its declared size; the third argument is that size less
    [minus], and [Uncompress] reads that many bytes from the start of the
    second argument.  A length that would wrap around or reach past the end
    of the array it is read from has no value here. *)
Definition compile_branch (decls : list cxx_decl) (b : cxx_branch) : option branch_code :=
  match cxx_string_literals (br_literal b),
        resolve (br_data b) decls,
        resolve (br_sizeof b) decls,
        resolve (br_md5 b) decls with
  | Some literal, Some (ArrayDecl _ size init), Some (ArrayDecl _ sizeof_array _),
    Some (CStrDecl _ md5_init) =>
      match array_contents size init, cxx_string_literals md5_init with
      | Some contents, Some md5_value =>
          if (br_minus b <=? sizeof_array)%N && (sizeof_array - br_minus b <=? size)%N
          then Some (mkCode (c_str literal)
                            (firstn (N.to_nat (sizeof_array - br_minus b)) contents)
                            (c_str md5_value))
          else None
      | _, _ => None
      end
  | _, _, _, _ => None
  end.

Fixpoint compile_branches (decls : list cxx_decl) (bs : list cxx_branch)
    : option (list branch_code) :=
  match bs with
  | [] => Some []
  | b :: r =>
      match compile_branch decls b, compile_branches decls r with
      | Some c, Some cs => Some (c :: cs)
      | _, _ => None
      end
  end.

(** No name is declared twice. *)
Fixpoint distinct_names (decls : list cxx_decl) : bool :=
  match decls with
  | [] => true
  | d :: rest =>
      negb (existsb (fun d' => String.eqb (decl_name d') (decl_name d)) rest)
      && distinct_names rest
  end.

(** The unit has a meaning when every declaration and every conditional has
    one and no name is declared twice. *)
Definition compile (m : cxx_module) : option (list branch_code) :=
  if forallb decl_ok (m_decls m) && distinct_names (m_decls m)
  then compile_branches (m_decls m) (m_branches m)
  else None.

(** The text [EncodeFileAsCString] writes between the opening and the closing
    quote, in closed form. *)
Definition literal_char (c : byte) : string :=
  let i := Byte.to_N c in
  if (i <? 32)%N || (127 <=? i)%N || (i =? ord "?")%N
  then str backslash ++ format_03o i
  else if existsb (N.eqb i) [ord dquote; ord backslash]
  then str backslash ++ chr i
  else chr i.

Fixpoint literal_text (content : bytes) (column : nat) : string :=
  match content with
  | [] => EmptyString
  | c :: rest =>
      literal_char c
      ++ (if (120 <=? column + 1)%nat
          then str dquote ++ nl ++ "  " ++ str dquote ++ literal_text rest 0
          else literal_text rest (column + 1))
  end.

Definition quoted (body : string) : string := str dquote ++ body ++ str dquote.

Section Embed.

(** [gzip.compress] and the digest of [hashlib.md5], on the Python side.
    The header of a gzip stream holds the time of the call, so the blob is
    not a function of the content alone: [gzip_compress count content] is
    what the call made for the file numbered [count] returns. *)
Variable gzip_compress : N -> bytes -> bytes.
Variable md5 : bytes -> bytes.

(** The rank that decides the order of [index.items()]. *)
Variable items_rank : string -> N.

(** [Orthanc::GzipCompressor::Uncompress] and [Orthanc::Toolbox::ComputeMD5],
    on the C++ side. *)
Variable GzipUncompress : bytes -> cxx_outcome.
Variable ComputeMD5 : bytes -> bytes.

(** [hashlib.md5(content).hexdigest()] *)
Definition hexdigest (content : bytes) : string :=
  join (map hex_byte (md5 content)).

(** The parameter [f] is not used: the text goes to the global [g]. *)
Definition WriteChecksum (f : nat) (variable : string) (content : bytes) : Py unit :=
  let md5 := hexdigest content in
  g <- global_g ;;
  write g ("static const char* " ++ variable ++ " = " ++ str dquote ++ md5
           ++ str dquote ++ ";" ++ nl ++ nl).

(** [g.write(text)] at module level. *)
Definition g_write (text : string) : Py unit :=
  g <- global_g ;; write g text.

(** The body of [for f in files], with the two variables it assigns, on
    Python 3 where the content is compressed by [gzip.compress]. *)
Definition file_body (os : OS) (SOURCE root : string) (f : string)
    (st : dict * N) : Py (dict * N) :=
  let '(index, count) := st in
  let fullPath := os_path_join os root f in
  let relativePath := os_path_relpath os (os_path_join os root f) SOURCE in
  let variable := "data_" ++ format_06d count in
  content <- (match read_binary os fullPath with
              | Some content => ret content
              | None => raise (OSError fullPath)
              end) ;;
  let compressed := gzip_compress count content in
  g <- global_g ;;
  EncodeFileAsCString g variable compressed ;;
  g <- global_g ;;
  WriteChecksum g (variable ++ "_md5") content ;;
  ret (dict_set relativePath variable index, (count + 1)%N).

(** [g.write] of a line that holds a relative path. *)
Definition g_write_path (os : OS) (path : string) (text : string) : Py unit :=
  if os_encodable os path then g_write text
  else raise (UnicodeEncodeError path).

Definition dispatch_body (os : OS) (entry : string * string) (_ : unit) : Py unit :=
  let '(path, variable) := entry in
  g_write_path os path
    ("  if (path == " ++ str dquote ++ path ++ str dquote ++ ")" ++ nl) ;;
  g_write ("  {" ++ nl) ;;
  g_write ("    Uncompress(target, " ++ variable ++ ", sizeof(" ++ variable ++ ") - 1, "
           ++ variable ++ "_md5);" ++ nl) ;;
  g_write ("    return;" ++ nl) ;;
  g_write ("  }" ++ nl ++ nl).

(** The script, from the check of [sys.argv] on. *)
Definition main (os : OS) (argv : list string) : Py unit :=
  if negb (List.length argv =? 3)%nat
  then raise (Exception ("Usage: " ++ nth 0 argv EmptyString
                         ++ " [source folder] [target C++]"))
  else
    let SOURCE := nth 1 argv EmptyString in
    let TARGET := nth 2 argv EmptyString in
    if negb (os_path_isdir os SOURCE)
    then raise (Exception ("Nonexistent source folder: " ++ SOURCE))
    else
      with_open_as_g os TARGET (
        g_write preamble ;;
        st <- for_each (fun '(root, dirs, files) st =>
                          for_each (file_body os SOURCE root) files st)
                       (os_walk os SOURCE) ([], 0%N) ;;
        let index := fst st in
        g_write ("void ReadStaticAsset(std::string& target, const std::string& path)" ++ nl) ;;
        g_write ("{" ++ nl) ;;
        for_each (dispatch_body os) (dict_items items_rank index) tt ;;
        g_write ("  throw Orthanc::OrthancException(Orthanc::ErrorCode_InexistentItem, "
                 ++ str dquote ++ "Unknown OHIF resource: " ++ str dquote ++ " + path);" ++ nl) ;;
        g_write ("}" ++ nl)).

(** ** The generated translation unit of a list of assets

    An asset is a relative path with the content of the file, in the order of
    the traversal. *)

Fixpoint decls_from (count : N) (assets : list (string * bytes)) : list cxx_decl :=
  match assets with
  | [] => []
  | (_, content) :: rest =>
      let variable := "data_" ++ format_06d count in
      let compressed := gzip_compress count content in
      ArrayDecl variable (len compressed + 1) (quoted (literal_text compressed 0))
      :: CStrDecl (variable ++ "_md5") (quoted (hexdigest content))
      :: decls_from (count + 1) rest
  end.

Fixpoint index_from (count : N) (assets : list (string * bytes)) (index : dict) : dict :=
  match assets with
  | [] => index
  | (relativePath, _) :: rest =>
      index_from (count + 1) rest (dict_set relativePath ("data_" ++ format_06d count) index)
  end.

(** The conditional the script writes for an entry of [index]. *)
Definition branch_of (entry : string * string) : cxx_branch :=
  mkBranch (quoted (fst entry)) (snd entry) (snd entry) 1 (snd entry ++ "_md5").

Definition module_of (assets : list (string * bytes)) : cxx_module :=
  mkModule (decls_from 0 assets)
           (map branch_of (dict_items items_rank (index_from 0 assets []))).

(** ** The generated routines *)

Definition Uncompress (data : bytes) (md5Expected : bytes) : cxx_outcome :=
  match GzipUncompress data with
  | Throws e => Throws e
  | Returns target =>
      let md5Actual := ComputeMD5 target in
      if negb (bytes_eqb md5Actual md5Expected)
      then Throws ErrorCode_CorruptedFile
      else Returns target
  end.

Fixpoint dispatch (code : list branch_code) (path : bytes) : cxx_outcome :=
  match code with
  | [] => Throws ErrorCode_InexistentItem
  | b :: rest =>
      if bytes_eqb path (bc_path b)
      then Uncompress (bc_data b) (bc_md5 b)
      else dispatch rest path
  end.

(** [ReadStaticAsset(target, path)] of a translation unit; [None] when the
    unit has no meaning here (see [cxx_string_literals]). *)
Definition ReadStaticAsset (m : cxx_module) (path : bytes) : option cxx_outcome :=
  match compile m with
  | Some code => Some (dispatch code path)
  | None => None
  end.

(** ** Statements about what a computation writes *)

(** [emits h c a text]: run in any store where [h] is the position of the last
    file object, open, and [g] is bound to it, the computation [c] returns
    [a] and appends [text] to that file object, changing nothing else. *)
Definition emits {A} (h : nat) (c : Py A) (a : A) (text : string) : Prop :=
  forall pre name data,
    List.length pre = h ->
    c (mkStore (pre ++ [mkFile name false data])%list (Some h))
    = (inr a, mkStore (pre ++ [mkFile name false (data ++ text)])%list (Some h)).

(** The files of the traversal with their content, when all can be read. *)
Fixpoint read_files (os : OS) (SOURCE root : string) (files : list string)
    : option (list (string * bytes)) :=
  match files with
  | [] => Some []
  | f :: rest =>
      match read_binary os (os_path_join os root f), read_files os SOURCE root rest with
      | Some content, Some assets =>
          Some ((os_path_relpath os (os_path_join os root f) SOURCE, content) :: assets)
      | _, _ => None
      end
  end.

Fixpoint read_walk (os : OS) (SOURCE : string)
    (entries : list (string * list string * list string))
    : option (list (string * bytes)) :=
  match entries with
  | [] => Some []
  | (root, _, files) :: rest =>
      match read_files os SOURCE root files, read_walk os SOURCE rest with
      | Some a, Some b => Some (a ++ b)%list
      | _, _ => None
      end
  end.

Definition read_assets (os : OS) (SOURCE : string) : option (list (string * bytes)) :=
  read_walk os SOURCE (os_walk os SOURCE).

(** A path the dispatch literal denotes as it stands: printable ASCII
    characters other than the quote, the backslash and the question mark. *)
Definition plain_char (c : ascii) : bool :=
  (32 <=? N_of_ascii c)%N && (N_of_ascii c <? 127)%N
  && negb (existsb (N.eqb (N_of_ascii c)) [34; 92; 63]%N).

Fixpoint plain_path (path : string) : bool :=
  match path with
  | EmptyString => true
  | String c rest => plain_char c && plain_path rest
  end.

(** The literal encoding without line wrapping. *)
Definition unwrapped_text (content : bytes) : string :=
  join (map literal_char content).

(** The rendering of a byte in the words of the specification: the character
    itself when printable and none of quote, backslash, question mark;
    a three-digit octal escape otherwise. *)
Definition octal_escape (i : N) : string :=
  String backslash
    (String (ascii_of_N (48 + i / 64))
       (String (ascii_of_N (48 + (i / 8) mod 8))
          (String (ascii_of_N (48 + i mod 8)) EmptyString))).

Definition printable (i : N) : bool := (32 <=? i)%N && (i <? 127)%N.

Definition spec_literal_char (c : byte) : string :=
  let i := Byte.to_N c in
  if printable i && negb (i =? 34)%N && negb (i =? 92)%N && negb (i =? 63)%N
  then chr i
  else octal_escape i.

(** Reading a variable name back: the number after [data_], when the name is
    [data_] followed by decimal digits only. *)
Definition variable_number (name : string) : option N :=
  match name with
  | String "d" (String "a" (String "t" (String "a" (String "_" digits)))) =>
      option_map N.of_uint (NilEmpty.uint_of_string digits)
  | _ => None
  end.

(** The entries of [index] and the compiled conditionals when no two assets
    share a path, in closed form. *)
Fixpoint entries_from (count : N) (assets : list (string * bytes)) : dict :=
  match assets with
  | [] => []
  | (relativePath, _) :: rest =>
      (relativePath, "data_" ++ format_06d count) :: entries_from (count + 1) rest
  end.

(** What the conditional of an entry of [index] is compiled to: the entry
    names the variable of a file with its path, and the conditional compares
    with that path and hands over the blob and the checksum of that file. *)
Definition serves (assets : list (string * bytes)) (entry : string * string)
    (code : branch_code) : Prop :=
  exists j content,
    nth_error assets j = Some (fst entry, content)
    /\ snd entry = "data_" ++ format_06d (N.of_nat j)
    /\ code = mkCode (list_byte_of_string (fst entry))
                     (gzip_compress (N.of_nat j) content)
                     (list_byte_of_string (hexdigest content)).

(** The files read before the first file that cannot be read, and the path
    of that file, if there is one. *)
Fixpoint scan_files (os : OS) (SOURCE root : string) (files : list string)
    : list (string * bytes) * option string :=
  match files with
  | [] => ([], None)
  | f :: rest =>
      match read_binary os (os_path_join os root f) with
      | Some content =>
          let '(done, failed) := scan_files os SOURCE root rest in
          ((os_path_relpath os (os_path_join os root f) SOURCE, content) :: done, failed)
      | None => ([], Some (os_path_join os root f))
      end
  end.

Fixpoint scan_walk (os : OS) (SOURCE : string)
    (entries : list (string * list string * list string))
    : list (string * bytes) * option string :=
  match entries with
  | [] => ([], None)
  | (root, _, files) :: rest =>
      match scan_files os SOURCE root files with
      | (done, Some p) => (done, Some p)
      | (done, None) =>
          let '(done', failed) := scan_walk os SOURCE rest in
          ((done ++ done')%list, failed)
      end
  end.

(** The widths, in characters, of the lines of a text. *)
Fixpoint line_widths_from (text : string) (width : nat) : list nat :=
  match text with
  | EmptyString => [width]
  | String c rest =>
      if Ascii.eqb c newline then width :: line_widths_from rest 0
      else line_widths_from rest (S width)
  end.

Definition line_widths (text : string) : list nat := line_widths_from text 0.

(** Whether a character occurs in a text. *)
Fixpoint occurs (c : ascii) (text : string) : bool :=
  match text with
  | EmptyString => false
  | String c' rest => Ascii.eqb c' c || occurs c rest
  end.

(** What closes and reopens the literal. *)
Definition line_break : string := str dquote ++ nl ++ "  " ++ str dquote.

(** [raises h c e text]: as [emits], for a computation that appends [text]
    and then leaves by the exception [e]. *)
Definition raises {A} (h : nat) (c : Py A) (e : PyExn) (text : string) : Prop :=
  forall pre name data,
    List.length pre = h ->
    c (mkStore (pre ++ [mkFile name false data])%list (Some h))
    = (inl e, mkStore (pre ++ [mkFile name false (data ++ text)])%list (Some h)).

(** [index.get(k)], to state what [index] holds. *)
Fixpoint dict_get (k : string) (d : dict) : option string :=
  match d with
  | [] => None
  | (k', v) :: r => if String.eqb k' k then Some v else dict_get k r
  end.

(** The position of the last asset with a given relative path. *)
Fixpoint last_index (path : string) (assets : list (string * bytes)) : option nat :=
  match assets with
  | [] => None
  | (p, _) :: rest =>
      match last_index path rest with
      | Some j => Some (S j)
      | None => if String.eqb p path then Some 0%nat else None
      end
  end.

Fixpoint all_chars (P : ascii -> bool) (text : string) : bool :=
  match text with
  | EmptyString => true
  | String c rest => P c && all_chars P rest
  end.

(** Printable ASCII other than the question mark, or the line feed. *)
Definition literal_source_char (c : ascii) : bool :=
  (printable (N_of_ascii c) && negb (N_of_ascii c =? 63)%N) || Ascii.eqb c newline.

(** A digit or one of the letters a to f, in lower case. *)
Definition lower_hex_char (c : ascii) : bool :=
  ((48 <=? N_of_ascii c)%N && (N_of_ascii c <=? 57)%N)
  || ((97 <=? N_of_ascii c)%N && (N_of_ascii c <=? 102)%N).

(** A source folder [src] with [a.txt] and [sub/b.bin], on a system with
    forward slashes; the second file can be made unreadable. *)
Definition scenario_os (readable : bool) : OS :=
  mkOS (fun p => String.eqb p "src")
       (fun _ => [("src", ["sub"], ["a.txt"]); ("src/sub", [], ["b.bin"])])
       (fun root f => root ++ "/" ++ f)
       (fun p start => substring (S (String.length start)) (String.length p) p)
       (fun p => if String.eqb p "src/a.txt" then Some [x68; x65; x6c; x6c; x6f]
                 else if readable then Some [x00; x3f; x22; x5c] else None)
       (fun _ => true)
       (fun _ => true).

(** [appends f c a text]: in any store where the file object [f] is open, the
    computation [c] returns [a] and appends [text] to [f], changing nothing
    else, whatever [g] is bound to. *)
Definition appends {A} (f : nat) (c : Py A) (a : A) (text : string) : Prop :=
  forall s fo,
    nth_error (st_files s) f = Some fo ->
    fo_closed fo = false ->
    c s = (inr a, mkStore (update_nth f (append_data text) (st_files s)) (st_g s)).

(** Membership in a list built by insertion: both directions by cases on
    the disjunction. *)
Ltac disjunct := solve [reflexivity | assumption | left; disjunct | right; disjunct].
Ltac in_cases :=
  intros; split;
  (let H := fresh "H" in
   intros H; repeat destruct H as [H | H]; subst; try contradiction; disjunct).

(** ** Text and store lemmas *)

Lemma string_app_assoc (a b c : string) : (a ++ b) ++ c = a ++ (b ++ c).
Proof. induction a as [|x a IH]; simpl; [reflexivity | now rewrite IH]. Qed.

Lemma string_app_nil_r (a : string) : a ++ EmptyString = a.
Proof. induction a as [|x a IH]; simpl; [reflexivity | now rewrite IH]. Qed.

Lemma string_length_app (a b : string) :
  String.length (a ++ b) = (String.length a + String.length b)%nat.
Proof. induction a as [|x a IH]; simpl; [reflexivity | now rewrite IH]. Qed.

Lemma update_nth_last {A} (f : A -> A) (pre : list A) (x : A) :
  update_nth (List.length pre) f (pre ++ [x])%list = (pre ++ [f x])%list.
Proof. induction pre as [|y pre IH]; simpl; [reflexivity | now rewrite IH]. Qed.

Lemma nth_error_last {A} (pre : list A) (x : A) :
  nth_error (pre ++ [x])%list (List.length pre) = Some x.
Proof. induction pre as [|y pre IH]; simpl; [reflexivity | exact IH]. Qed.

Lemma emits_ret {A} h (a : A) : emits h (ret a) a EmptyString.
Proof. intros pre name data _. unfold ret. now rewrite string_app_nil_r. Qed.

Lemma emits_bind {A B} h (c : Py A) (k : A -> Py B) a b t1 t2 :
  emits h c a t1 -> emits h (k a) b t2 -> emits h (bind c k) b (t1 ++ t2).
Proof.
  intros Hc Hk pre name data Hlen. unfold bind.
  rewrite (Hc pre name data Hlen), (Hk pre name (data ++ t1) Hlen).
  now rewrite string_app_assoc.
Qed.

Lemma emits_eq {A} h (c : Py A) a t t' : emits h c a t -> t = t' -> emits h c a t'.
Proof. now intros H <-. Qed.

Lemma emits_value {A} h (c : Py A) a a' t : emits h c a t -> a = a' -> emits h c a' t.
Proof. now intros H <-. Qed.

Lemma emits_write h text : emits h (write h text) tt text.
Proof.
  intros pre name data Hlen. subst h. unfold write. simpl.
  rewrite nth_error_last. simpl. now rewrite update_nth_last.
Qed.

Lemma emits_global_g h : emits h global_g h EmptyString.
Proof. intros pre name data _. unfold global_g. simpl. now rewrite string_app_nil_r. Qed.

Lemma emits_g_write h text : emits h (g_write text) tt text.
Proof.
  unfold g_write. eapply emits_eq.
  - eapply emits_bind; [apply emits_global_g | apply emits_write].
  - reflexivity.
Qed.

(** ** The value of the literals the encoder writes *)

Lemma emit_byte (c : byte) (r : option bytes) :
  emit (Byte.to_N c) r = option_map (cons c) r.
Proof. unfold emit. rewrite Byte.of_to_N. now destruct r. Qed.

Lemma lex_in_literal_char (c : byte) (rest : string) :
  lex_in (literal_char c ++ rest) = option_map (cons c) (lex_in rest).
Proof. rewrite <- emit_byte. destruct c; reflexivity. Qed.

Lemma lex_in_wrap (rest : string) :
  lex_in (str dquote ++ nl ++ "  " ++ str dquote ++ rest) = lex_in rest.
Proof. reflexivity. Qed.

Lemma option_map_cons_app (c : byte) (content : bytes) (r : option bytes) :
  option_map (cons c) (option_map (app content) r) = option_map (app (c :: content)) r.
Proof. now destruct r. Qed.

Lemma lex_in_literal_text (content : bytes) (column : nat) (rest : string) :
  lex_in (literal_text content column ++ rest) = option_map (app content) (lex_in rest).
Proof.
  revert column. induction content as [|c content IH]; intros column.
  - simpl. now destruct (lex_in rest).
  - cbn [literal_text]. rewrite string_app_assoc, lex_in_literal_char.
    destruct (120 <=? column + 1)%nat.
    + rewrite !string_app_assoc. rewrite lex_in_wrap, IH. apply option_map_cons_app.
    + rewrite IH. apply option_map_cons_app.
Qed.

Lemma lex_in_unwrapped_text (content : bytes) (rest : string) :
  lex_in (unwrapped_text content ++ rest) = option_map (app content) (lex_in rest).
Proof.
  unfold unwrapped_text. induction content as [|c content IH]; simpl.
  - now destruct (lex_in rest).
  - rewrite string_app_assoc, lex_in_literal_char, IH. apply option_map_cons_app.
Qed.

(** *** No trigraph can arise

    The question mark is always written as an octal escape, so the text of a
    data literal holds no question mark and the trigraph replacement of the
    older dialects leaves it as it is. *)

Lemma occurs_app (c : ascii) (a b : string) :
  occurs c (a ++ b) = occurs c a || occurs c b.
Proof.
  induction a as [|x a IH]; [reflexivity|].
  cbn [append occurs]. now rewrite IH, orb_assoc.
Qed.

Lemma literal_char_no_question_mark (c : byte) : occurs "?" (literal_char c) = false.
Proof. destruct c; reflexivity. Qed.

Lemma literal_text_no_question_mark (content : bytes) : forall column,
  occurs "?" (literal_text content column) = false.
Proof.
  induction content as [|c content IH]; intros column; [reflexivity|].
  cbn [literal_text]. rewrite occurs_app, literal_char_no_question_mark.
  destruct (120 <=? column + 1)%nat.
  - rewrite !occurs_app, IH. reflexivity.
  - apply IH.
Qed.

Lemma unwrapped_text_no_question_mark (content : bytes) :
  occurs "?" (unwrapped_text content) = false.
Proof.
  unfold unwrapped_text. induction content as [|c content IH]; [reflexivity|].
  change (join (map literal_char (c :: content)))
    with (literal_char c ++ join (map literal_char content)).
  now rewrite occurs_app, literal_char_no_question_mark, IH.
Qed.

Lemma no_question_mark_no_trigraph (text : string) :
  occurs "?" text = false -> has_trigraph text = false.
Proof.
  induction text as [|c text IH]; [reflexivity|].
  cbn [occurs has_trigraph]. intros H. apply orb_false_iff in H as [Hc Ht].
  now rewrite Hc, (IH Ht).
Qed.

Lemma literals_quoted (body : string) :
  occurs "?" body = false ->
  cxx_string_literals (quoted body) = lex_in (body ++ str dquote).
Proof.
  intros H. unfold cxx_string_literals.
  rewrite no_question_mark_no_trigraph; [reflexivity|].
  unfold quoted. now rewrite !occurs_app, H.
Qed.

Lemma literals_literal_text (content : bytes) (column : nat) :
  cxx_string_literals (quoted (literal_text content column)) = Some content.
Proof.
  rewrite literals_quoted by apply literal_text_no_question_mark.
  rewrite lex_in_literal_text. simpl. now rewrite app_nil_r.
Qed.

Lemma literals_unwrapped_text (content : bytes) :
  cxx_string_literals (quoted (unwrapped_text content)) = Some content.
Proof.
  rewrite literals_quoted by apply unwrapped_text_no_question_mark.
  rewrite lex_in_unwrapped_text. simpl. now rewrite app_nil_r.
Qed.

Lemma emits_encode_loop h (content : bytes) (column : nat) :
  emits h (encode_loop h content column) tt (literal_text content column).
Proof.
  revert column. induction content as [|c content IH]; intros column.
  - apply emits_ret.
  - cbn [encode_loop literal_text]. eapply emits_bind.
    + unfold literal_char.
      destruct ((Byte.to_N c <? 32)%N || (127 <=? Byte.to_N c)%N || (Byte.to_N c =? ord "?")%N);
        [apply emits_write|].
      destruct (existsb (N.eqb (Byte.to_N c)) [ord dquote; ord backslash]); apply emits_write.
    + destruct (120 <=? column + 1)%nat.
      * eapply emits_eq; [eapply emits_bind; [apply emits_write | apply IH]|].
        now rewrite !string_app_assoc.
      * apply IH.
Qed.

Lemma emits_EncodeFileAsCString h (variable : string) (content : bytes) :
  emits h (EncodeFileAsCString h variable content) tt
    (render_decl (ArrayDecl variable (len content + 1) (quoted (literal_text content 0)))).
Proof.
  unfold EncodeFileAsCString. eapply emits_eq.
  - eapply emits_bind; [apply emits_write|].
    eapply emits_bind; [apply emits_encode_loop | apply emits_write].
  - unfold render_decl, quoted. now rewrite !string_app_assoc.
Qed.

(** ** Plain text denotes itself *)

Lemma lex_in_plain_char (c : ascii) (rest : string) :
  plain_char c = true ->
  lex_in (String c rest) = option_map (cons (byte_of_ascii c)) (lex_in rest).
Proof.
  destruct c as [[] [] [] [] [] [] [] []]; intros H;
    first [discriminate H | now (cbn; destruct (lex_in rest))].
Qed.

Lemma lex_in_plain_path (path rest : string) :
  plain_path path = true ->
  lex_in (path ++ rest)
  = option_map (app (list_byte_of_string path)) (lex_in rest).
Proof.
  induction path as [|c path IH]; intros H.
  - simpl. now destruct (lex_in rest).
  - simpl in H. apply andb_true_iff in H as [Hc Hp].
    change (String c path ++ rest) with (String c (path ++ rest)).
    rewrite (lex_in_plain_char c _ Hc), (IH Hp). now destruct (lex_in rest).
Qed.

Lemma plain_path_no_question_mark (path : string) :
  plain_path path = true -> occurs "?" path = false.
Proof.
  induction path as [|c path IH]; intros H; [reflexivity|].
  simpl in H. apply andb_true_iff in H as [Hc Hp].
  cbn [occurs]. rewrite (IH Hp).
  destruct c as [[] [] [] [] [] [] [] []]; first [discriminate Hc | reflexivity].
Qed.

Lemma literals_plain_path (path : string) :
  plain_path path = true ->
  cxx_string_literals (quoted path) = Some (list_byte_of_string path).
Proof.
  intros H. rewrite literals_quoted by now apply plain_path_no_question_mark.
  rewrite (lex_in_plain_path _ _ H). simpl. now rewrite app_nil_r.
Qed.

Lemma c_str_plain_path (path : string) :
  plain_path path = true ->
  c_str (list_byte_of_string path) = list_byte_of_string path.
Proof.
  induction path as [|c path IH]; intros H; [reflexivity|].
  simpl in H. apply andb_true_iff in H as [Hc Hp].
  change (list_byte_of_string (String c path))
    with (byte_of_ascii c :: list_byte_of_string path).
  cbn [c_str]. rewrite (IH Hp).
  destruct c as [[] [] [] [] [] [] [] []]; first [discriminate Hc | reflexivity].
Qed.

Lemma plain_path_app (a b : string) :
  plain_path (a ++ b) = plain_path a && plain_path b.
Proof. induction a as [|c a IH]; simpl; [reflexivity | now rewrite IH, andb_assoc]. Qed.

Lemma plain_path_hex_byte (b : byte) : plain_path (hex_byte b) = true.
Proof. destruct b; reflexivity. Qed.

Lemma plain_path_hexdigest (content : bytes) : plain_path (hexdigest content) = true.
Proof.
  unfold hexdigest. induction (md5 content) as [|b l IH]; [reflexivity|].
  change (join (map hex_byte (b :: l))) with (hex_byte b ++ join (map hex_byte l)).
  now rewrite plain_path_app, plain_path_hex_byte, IH.
Qed.

Lemma length_hexdigest (content : bytes) :
  String.length (hexdigest content) = (2 * List.length (md5 content))%nat.
Proof.
  unfold hexdigest. induction (md5 content) as [|b l IH]; [reflexivity|].
  change (join (map hex_byte (b :: l))) with (hex_byte b ++ join (map hex_byte l)).
  rewrite string_length_app, IH. simpl. lia.
Qed.

(** ** Variable names *)

Lemma uint_of_string_zeros (n : nat) (s : string) (d : Decimal.uint) :
  NilEmpty.uint_of_string s = Some d ->
  exists d', NilEmpty.uint_of_string (zeros n ++ s) = Some d' /\ N.of_uint d' = N.of_uint d.
Proof.
  intros H. induction n as [|n [d' [H1 H2]]].
  - now exists d.
  - exists (Decimal.D0 d'). simpl. rewrite H1. simpl. split; [reflexivity | exact H2].
Qed.

Lemma uint_of_format_d (n : N) :
  exists d, NilEmpty.uint_of_string (format_d n) = Some d /\ N.of_uint d = n.
Proof.
  unfold format_d, NilZero.string_of_uint.
  destruct (N.to_uint n) eqn:E;
    try (eexists; split; [apply NilEmpty.usu | rewrite <- E; apply Unsigned.of_to]).
  exists (Decimal.D0 Decimal.Nil). split; [reflexivity|].
  rewrite <- (Unsigned.of_to n), E. reflexivity.
Qed.

Lemma variable_number_variable (count : N) :
  variable_number ("data_" ++ format_06d count) = Some count.
Proof.
  destruct (uint_of_format_d count) as [d [H1 H2]].
  destruct (uint_of_string_zeros (6 - String.length (format_d count)) _ _ H1)
    as [d' [H3 H4]].
  cbn [variable_number append]. unfold format_06d, zero_pad. rewrite H3. simpl.
  now rewrite H4, H2.
Qed.

Lemma uint_of_string_md5 (s : string) :
  NilEmpty.uint_of_string (s ++ "_md5") = None.
Proof. induction s as [|c s IH]; [reflexivity|]. simpl. now rewrite IH. Qed.

Lemma variable_number_md5 (count : N) :
  variable_number (("data_" ++ format_06d count) ++ "_md5") = None.
Proof. cbn [variable_number append]. now rewrite uint_of_string_md5. Qed.

Lemma variable_eqb (c k : N) :
  (("data_" ++ format_06d c) =? ("data_" ++ format_06d k))%string = (c =? k)%N.
Proof.
  destruct (N.eqb_spec c k) as [->|Hne]; [apply String.eqb_refl|].
  apply String.eqb_neq. intros E. apply Hne.
  apply (f_equal variable_number) in E. rewrite !variable_number_variable in E.
  now injection E.
Qed.

Lemma variable_md5_eqb (c k : N) :
  ((("data_" ++ format_06d c) ++ "_md5") =? (("data_" ++ format_06d k) ++ "_md5"))%string
  = (c =? k)%N.
Proof.
  destruct (N.eqb_spec c k) as [->|Hne]; [apply String.eqb_refl|].
  apply String.eqb_neq. intros E. apply Hne.
  assert (H : forall a b : string, a ++ "_md5" = b ++ "_md5" -> a = b).
  { induction a as [|x a IH]; intros [|y b] Hab.
    - reflexivity.
    - exfalso. apply (f_equal String.length) in Hab. simpl in Hab.
      rewrite string_length_app in Hab. simpl in Hab. lia.
    - exfalso. apply (f_equal String.length) in Hab. simpl in Hab.
      rewrite string_length_app in Hab. simpl in Hab. lia.
    - simpl in Hab. injection Hab as -> Hab. now rewrite (IH _ Hab). }
  apply H in E. apply (f_equal variable_number) in E.
  rewrite !variable_number_variable in E. now injection E.
Qed.

Lemma variable_neq_md5 (c k : N) :
  (("data_" ++ format_06d c) =? (("data_" ++ format_06d k) ++ "_md5"))%string = false.
Proof.
  apply String.eqb_neq. intros E. apply (f_equal variable_number) in E.
  now rewrite variable_number_variable, variable_number_md5 in E.
Qed.

Lemma md5_neq_variable (c k : N) :
  ((("data_" ++ format_06d c) ++ "_md5") =? ("data_" ++ format_06d k))%string = false.
Proof. rewrite String.eqb_sym. apply variable_neq_md5. Qed.

(** ** What the script writes *)

Lemma join_app (l1 l2 : list string) : join (l1 ++ l2)%list = join l1 ++ join l2.
Proof.
  induction l1 as [|x l1 IH]; [reflexivity|].
  change (join ((x :: l1) ++ l2)%list) with (x ++ join (l1 ++ l2)%list).
  change (join (x :: l1)) with (x ++ join l1).
  now rewrite IH, string_app_assoc.
Qed.

Lemma decls_from_app (count : N) (a b : list (string * bytes)) :
  decls_from count (a ++ b)%list
  = (decls_from count a ++ decls_from (count + N.of_nat (List.length a)) b)%list.
Proof.
  revert count. induction a as [|[p c] a IH]; intros count.
  - simpl. now rewrite N.add_0_r.
  - cbn [decls_from app List.length]. rewrite IH.
    now replace (count + 1 + N.of_nat (List.length a))%N
      with (count + N.of_nat (S (List.length a)))%N by lia.
Qed.

Lemma index_from_app (count : N) (a b : list (string * bytes)) (index : dict) :
  index_from count (a ++ b)%list index
  = index_from (count + N.of_nat (List.length a)) b (index_from count a index).
Proof.
  revert count index. induction a as [|[p c] a IH]; intros count index.
  - simpl. now rewrite N.add_0_r.
  - cbn [index_from app List.length]. rewrite IH.
    now replace (count + 1 + N.of_nat (List.length a))%N
      with (count + N.of_nat (S (List.length a)))%N by lia.
Qed.

Lemma emits_WriteChecksum h (f : nat) (variable : string) (content : bytes) :
  emits h (WriteChecksum f variable content) tt
    (render_decl (CStrDecl variable (quoted (hexdigest content)))).
Proof.
  unfold WriteChecksum. eapply emits_eq.
  - eapply emits_bind; [apply emits_global_g | apply emits_write].
  - unfold render_decl, quoted. now rewrite !string_app_assoc.
Qed.

Lemma emits_file_body h os SOURCE root f index count content :
  read_binary os (os_path_join os root f) = Some content ->
  emits h (file_body os SOURCE root f (index, count))
    (index_from count [(os_path_relpath os (os_path_join os root f) SOURCE, content)] index,
     (count + 1)%N)
    (join (map render_decl
             (decls_from count
                [(os_path_relpath os (os_path_join os root f) SOURCE, content)]))).
Proof.
  intros Hread. unfold file_body. rewrite Hread. eapply emits_eq.
  - eapply emits_bind; [apply emits_ret|].
    eapply emits_bind; [apply emits_global_g|].
    eapply emits_bind; [apply emits_EncodeFileAsCString|].
    eapply emits_bind; [apply emits_global_g|].
    eapply emits_bind; [apply emits_WriteChecksum | apply emits_ret].
  - cbn [decls_from map join fold_right append]. now rewrite !string_app_nil_r.
Qed.

Lemma emits_files h os SOURCE root files : forall index count assets,
  read_files os SOURCE root files = Some assets ->
  emits h (for_each (file_body os SOURCE root) files (index, count))
    (index_from count assets index, (count + N.of_nat (List.length assets))%N)
    (join (map render_decl (decls_from count assets))).
Proof.
  induction files as [|f files IH]; intros index count assets Hread.
  - injection Hread as <-. simpl. rewrite N.add_0_r. apply emits_ret.
  - cbn [read_files] in Hread.
    destruct (read_binary os (os_path_join os root f)) as [content|] eqn:Hc;
      [|discriminate].
    destruct (read_files os SOURCE root files) as [rest|] eqn:Hr; [|discriminate].
    injection Hread as <-. cbn [for_each]. eapply emits_eq.
    + eapply emits_bind; [apply (emits_file_body _ _ _ _ _ _ _ _ Hc)|].
      eapply emits_value; [apply (IH _ _ rest eq_refl)|].
      cbn [index_from List.length]. f_equal. lia.
    + rewrite <- join_app, <- map_app.
      change ((os_path_relpath os (os_path_join os root f) SOURCE, content) :: rest)
        with ([(os_path_relpath os (os_path_join os root f) SOURCE, content)] ++ rest)%list.
      now rewrite decls_from_app.
Qed.

Lemma emits_walk h os SOURCE entries : forall index count assets,
  read_walk os SOURCE entries = Some assets ->
  emits h (for_each (fun '(root, dirs, files) st =>
                       for_each (file_body os SOURCE root) files st)
                    entries (index, count))
    (index_from count assets index, (count + N.of_nat (List.length assets))%N)
    (join (map render_decl (decls_from count assets))).
Proof.
  induction entries as [|[[root dirs] files] entries IH]; intros index count assets Hread.
  - injection Hread as <-. simpl. rewrite N.add_0_r. apply emits_ret.
  - cbn [read_walk] in Hread.
    destruct (read_files os SOURCE root files) as [a|] eqn:Ha; [|discriminate].
    destruct (read_walk os SOURCE entries) as [b|] eqn:Hb; [|discriminate].
    injection Hread as <-. cbn [for_each]. eapply emits_eq.
    + eapply emits_bind; [apply (emits_files _ _ _ _ _ _ _ _ Ha)|].
      eapply emits_value; [apply (IH _ _ b eq_refl)|].
      rewrite index_from_app, length_app. f_equal. lia.
    + now rewrite decls_from_app, map_app, join_app.
Qed.

Lemma dict_set_in (k v : string) (d : dict) (e : string * string) :
  In e (dict_set k v d) -> e = (k, v) \/ In e d.
Proof.
  induction d as [|[k' v'] d IH]; cbn [dict_set].
  - intros [<-|[]]. now left.
  - destruct (String.eqb_spec k' k) as [->|Hne].
    + intros [<-|Hin]; [now left | right; now right].
    + intros [<-|Hin]; [right; now left|].
      destruct (IH Hin) as [->|Hin']; [now left | right; now right].
Qed.

Lemma index_from_in (assets : list (string * bytes)) : forall count index e,
  In e (index_from count assets index) ->
  In e index
  \/ exists j path content,
       nth_error assets j = Some (path, content)
       /\ e = (path, "data_" ++ format_06d (count + N.of_nat j)).
Proof.
  induction assets as [|[p c] assets IH]; intros count index e Hin.
  - now left.
  - cbn [index_from] in Hin. destruct (IH _ _ _ Hin) as [Hset | [j [path [content [Hnth ->]]]]].
    + destruct (dict_set_in _ _ _ _ Hset) as [-> | Hidx]; [|now left].
      right. exists 0%nat, p, c. simpl N.of_nat. now rewrite N.add_0_r.
    + right. exists (S j), path, content. split; [exact Hnth|].
      now replace (count + N.of_nat (S j))%N with (count + 1 + N.of_nat j)%N by lia.
Qed.

Lemma insert_by_rank_in (rank : string -> N) (e x : string * string) (d : dict) :
  In x (insert_by_rank rank e d) <-> x = e \/ In x d.
Proof.
  induction d as [|e' d IH]; cbn [insert_by_rank In]; [in_cases|].
  destruct (rank (fst e) <=? rank (fst e'))%N; cbn [In]; [in_cases|].
  rewrite IH. in_cases.
Qed.

Lemma dict_items_in (rank : string -> N) (x : string * string) (d : dict) :
  In x (dict_items rank d) <-> In x d.
Proof.
  induction d as [|e d IH]; cbn [dict_items In]; [reflexivity|].
  rewrite insert_by_rank_in, IH. in_cases.
Qed.

Lemma index_entry_is_asset (assets : list (string * bytes)) (e : string * string) :
  In e (dict_items items_rank (index_from 0 assets [])) ->
  exists j content,
    nth_error assets j = Some (fst e, content)
    /\ snd e = "data_" ++ format_06d (N.of_nat j).
Proof.
  intros Hin. apply dict_items_in in Hin.
  destruct (index_from_in _ _ _ _ Hin) as [[] | [j [path [content [Hnth ->]]]]].
  exists j, content. cbn [fst snd]. rewrite N.add_0_l. now split.
Qed.

Lemma emits_dispatch_body h os (entry : string * string) :
  os_encodable os (fst entry) = true ->
  emits h (dispatch_body os entry tt) tt (render_branch (branch_of entry)).
Proof.
  destruct entry as [path variable]. cbn [fst]. intros Henc.
  unfold dispatch_body, g_write_path. rewrite Henc. eapply emits_eq.
  - repeat (eapply emits_bind; [apply emits_g_write|]). apply emits_g_write.
  - unfold render_branch, branch_of, quoted.
    cbn [br_literal br_data br_sizeof br_minus br_md5 fst snd].
    rewrite !string_app_assoc. reflexivity.
Qed.

Lemma emits_dispatch h os (index : dict) :
  Forall (fun entry => os_encodable os (fst entry) = true) index ->
  emits h (for_each (dispatch_body os) index tt) tt
    (join (map render_branch (map branch_of index))).
Proof.
  induction 1 as [|entry index Henc _ IH]; [apply emits_ret|].
  cbn [for_each]. eapply emits_eq.
  - eapply emits_bind; [apply (emits_dispatch_body _ _ _ Henc) | exact IH].
  - reflexivity.
Qed.

Lemma index_entries_encodable os (assets : list (string * bytes)) :
  forallb (fun asset => os_encodable os (fst asset)) assets = true ->
  Forall (fun entry => os_encodable os (fst entry) = true)
         (dict_items items_rank (index_from 0 assets [])).
Proof.
  intros Henc. apply Forall_forall. intros e He.
  destruct (index_entry_is_asset assets e He) as [j [content [Hnth _]]].
  rewrite forallb_forall in Henc.
  exact (Henc _ (nth_error_In _ _ Hnth)).
Qed.

(** The script, run with a target that can be opened, a source folder whose
    files can all be read and paths that can all be encoded, leaves in the
    target file the printed translation unit of the assets, and the file
    closed. *)
Lemma main_writes_module os (argv : list string) (s : store) assets :
  List.length argv = 3%nat ->
  os_path_isdir os (nth 1 argv EmptyString) = true ->
  os_open_w os (nth 2 argv EmptyString) = true ->
  read_assets os (nth 1 argv EmptyString) = Some assets ->
  forallb (fun asset => os_encodable os (fst asset)) assets = true ->
  main os argv s
  = (inr tt,
     mkStore (st_files s ++ [mkFile (nth 2 argv EmptyString) true
                                     (render (module_of assets))])%list
             (Some (List.length (st_files s)))).
Proof.
  intros Hlen Hdir Hopen Hread Henc. unfold main. rewrite Hlen, Hdir. cbn [Nat.eqb negb].
  unfold with_open_as_g. rewrite Hopen. unfold with_open_w_as_g, open_w.
  set (h := List.length (st_files s)).
  set (body := g_write preamble ;; _).
  assert (Hbody : emits h body tt (render (module_of assets))).
  { subst body. eapply emits_eq.
    - eapply emits_bind; [apply emits_g_write|].
      eapply emits_bind; [apply (emits_walk _ _ _ _ _ _ _ Hread)|].
      cbn [fst].
      eapply emits_bind; [apply emits_g_write|].
      eapply emits_bind; [apply emits_g_write|].
      eapply emits_bind; [apply (emits_dispatch _ _ _ (index_entries_encodable _ _ Henc))|].
      eapply emits_bind; [apply emits_g_write|].
      apply emits_g_write.
    - unfold render, module_of. cbn [m_decls m_branches].
      now rewrite ?string_app_assoc. }
  unfold bind at 1. unfold bind_global_g at 1. cbn [st_files st_g].
  rewrite (Hbody (st_files s) (nth 2 argv EmptyString) EmptyString eq_refl).
  unfold close. cbn [snd st_files st_g]. subst h. rewrite update_nth_last.
  reflexivity.
Qed.

(** ** The generated unit, compiled *)

Lemma bytes_eqb_eq (a b : bytes) : bytes_eqb a b = true <-> a = b.
Proof.
  revert b. induction a as [|x a IH]; intros [|y b]; simpl; try (split; congruence).
  rewrite andb_true_iff, IH. split.
  - intros [H ->]. now rewrite (Byte.byte_dec_bl _ _ H).
  - intros H. injection H as -> ->. split; [now apply Byte.byte_dec_lb | reflexivity].
Qed.

Lemma bytes_eqb_refl (a : bytes) : bytes_eqb a a = true.
Proof. now apply bytes_eqb_eq. Qed.

Lemma bytes_eqb_neq (a b : bytes) : a <> b -> bytes_eqb a b = false.
Proof.
  intros H. destruct (bytes_eqb a b) eqn:E; [|reflexivity].
  now apply bytes_eqb_eq in E.
Qed.

Lemma list_byte_of_string_inj (a b : string) :
  list_byte_of_string a = list_byte_of_string b -> a = b.
Proof.
  intros H. rewrite <- (string_of_list_byte_of_string a), H.
  apply string_of_list_byte_of_string.
Qed.

Lemma array_contents_literal (content : bytes) :
  array_contents (len content + 1) (quoted (literal_text content 0))
  = Some (content ++ [x00])%list.
Proof.
  unfold array_contents. rewrite literals_literal_text, N.leb_refl.
  replace (N.to_nat (len content + 1) - List.length content)%nat with 1%nat
    by (unfold len; lia).
  reflexivity.
Qed.

Lemma firstn_sizeof_minus_1 (content : bytes) :
  firstn (N.to_nat (len content + 1 - 1)) (content ++ [x00])%list = content.
Proof.
  replace (N.to_nat (len content + 1 - 1)) with (List.length content + 0)%nat
    by (unfold len; lia).
  rewrite firstn_app_2. simpl. apply app_nil_r.
Qed.

Lemma literals_hexdigest (content : bytes) :
  cxx_string_literals (quoted (hexdigest content))
  = Some (list_byte_of_string (hexdigest content)).
Proof. apply literals_plain_path, plain_path_hexdigest. Qed.

Lemma decls_from_ok (count : N) (assets : list (string * bytes)) :
  forallb decl_ok (decls_from count assets) = true.
Proof.
  revert count. induction assets as [|[p c] assets IH]; intros count; [reflexivity|].
  cbn [decls_from forallb decl_ok].
  now rewrite array_contents_literal, literals_hexdigest, IH.
Qed.

Lemma decls_from_fresh (assets : list (string * bytes)) : forall count name,
  (forall k, (count <= k)%N ->
             (("data_" ++ format_06d k) =? name)%string = false
             /\ ((("data_" ++ format_06d k) ++ "_md5") =? name)%string = false) ->
  existsb (fun d' => String.eqb (decl_name d') name) (decls_from count assets) = false.
Proof.
  induction assets as [|[p c] assets IH]; intros count name Hfresh; [reflexivity|].
  cbn [decls_from existsb decl_name].
  destruct (Hfresh count (N.le_refl _)) as [-> ->]. cbn [orb].
  apply IH. intros k Hk. apply Hfresh. lia.
Qed.

Lemma decls_from_distinct (assets : list (string * bytes)) : forall count,
  distinct_names (decls_from count assets) = true.
Proof.
  induction assets as [|[p c] assets IH]; intros count; [reflexivity|].
  cbn [decls_from distinct_names existsb decl_name].
  rewrite md5_neq_variable, IH. cbn [orb].
  rewrite !decls_from_fresh; [reflexivity | |].
  - intros k Hk. rewrite variable_neq_md5, variable_md5_eqb. split; [reflexivity|].
    apply N.eqb_neq. lia.
  - intros k Hk. rewrite variable_eqb, md5_neq_variable. split; [|reflexivity].
    apply N.eqb_neq. lia.
Qed.

Lemma resolve_variable (assets : list (string * bytes)) : forall count j path content,
  nth_error assets j = Some (path, content) ->
  resolve ("data_" ++ format_06d (count + N.of_nat j)) (decls_from count assets)
  = Some (ArrayDecl ("data_" ++ format_06d (count + N.of_nat j))
                    (len (gzip_compress (count + N.of_nat j) content) + 1)
                    (quoted (literal_text (gzip_compress (count + N.of_nat j) content) 0))).
Proof.
  induction assets as [|[p c] assets IH]; intros count j path content Hnth.
  - now destruct j.
  - unfold resolve. cbn [decls_from find decl_name].
    rewrite variable_eqb, md5_neq_variable.
    destruct j as [|j].
    + injection Hnth as -> ->. simpl N.of_nat. rewrite N.add_0_r, N.eqb_refl.
      reflexivity.
    + replace (count =? count + N.of_nat (S j))%N with false
        by (symmetry; apply N.eqb_neq; lia).
      replace (count + N.of_nat (S j))%N with (count + 1 + N.of_nat j)%N by lia.
      apply (IH _ _ _ _ Hnth).
Qed.

Lemma resolve_variable_md5 (assets : list (string * bytes)) : forall count j path content,
  nth_error assets j = Some (path, content) ->
  resolve (("data_" ++ format_06d (count + N.of_nat j)) ++ "_md5") (decls_from count assets)
  = Some (CStrDecl (("data_" ++ format_06d (count + N.of_nat j)) ++ "_md5")
                   (quoted (hexdigest content))).
Proof.
  induction assets as [|[p c] assets IH]; intros count j path content Hnth.
  - now destruct j.
  - unfold resolve. cbn [decls_from find decl_name].
    rewrite variable_neq_md5, variable_md5_eqb.
    destruct j as [|j].
    + injection Hnth as -> ->. simpl N.of_nat. rewrite N.add_0_r, N.eqb_refl.
      reflexivity.
    + replace (count =? count + N.of_nat (S j))%N with false
        by (symmetry; apply N.eqb_neq; lia).
      replace (count + N.of_nat (S j))%N with (count + 1 + N.of_nat j)%N by lia.
      apply (IH _ _ _ _ Hnth).
Qed.

(** The conditional the script writes for the variable of the [j]-th asset
    hands the compressed content of that asset and its checksum to
    [Uncompress], whenever its path literal has a value. *)
Lemma compile_branch_variable (assets : list (string * bytes)) j path content
    (literal : string) (value : bytes) :
  nth_error assets j = Some (path, content) ->
  cxx_string_literals literal = Some value ->
  compile_branch (decls_from 0 assets)
                 (mkBranch literal ("data_" ++ format_06d (N.of_nat j))
                           ("data_" ++ format_06d (N.of_nat j)) 1
                           (("data_" ++ format_06d (N.of_nat j)) ++ "_md5"))
  = Some (mkCode (c_str value) (gzip_compress (N.of_nat j) content)
                 (list_byte_of_string (hexdigest content))).
Proof.
  intros Hnth Hlit. unfold compile_branch.
  cbn [br_literal br_data br_sizeof br_minus br_md5].
  rewrite Hlit.
  rewrite <- (N.add_0_l (N.of_nat j)).
  rewrite (resolve_variable _ _ _ _ _ Hnth), (resolve_variable_md5 _ _ _ _ _ Hnth).
  rewrite array_contents_literal, literals_hexdigest, firstn_sizeof_minus_1.
  rewrite (c_str_plain_path _ (plain_path_hexdigest content)).
  replace ((1 <=? len (gzip_compress (0 + N.of_nat j) content) + 1)%N
           && (len (gzip_compress (0 + N.of_nat j) content) + 1 - 1
               <=? len (gzip_compress (0 + N.of_nat j) content) + 1)%N)
    with true; [reflexivity|].
  symmetry. apply andb_true_iff. split; apply N.leb_le; lia.
Qed.

Lemma dict_set_key_in (k v x : string) (d : dict) :
  In x (map fst (dict_set k v d)) <-> x = k \/ In x (map fst d).
Proof.
  induction d as [|[k' v'] d IH]; cbn [dict_set].
  - cbn [map fst In]. in_cases.
  - destruct (String.eqb_spec k' k) as [->|Hne]; cbn [map fst In].
    + in_cases.
    + rewrite IH. in_cases.
Qed.

Lemma dict_set_nodup (k v : string) (d : dict) :
  NoDup (map fst d) -> NoDup (map fst (dict_set k v d)).
Proof.
  induction d as [|[k' v'] d IH]; intros Hnd; cbn [dict_set].
  - cbn [map fst]. constructor; [intros [] | constructor].
  - cbn [map fst] in Hnd. inversion Hnd as [|x l Hnotin Hnd']; subst.
    destruct (String.eqb_spec k' k) as [->|Hne]; cbn [map fst].
    + now constructor.
    + constructor; [|now apply IH].
      rewrite dict_set_key_in. intros [-> | Hin]; [now apply Hne | now apply Hnotin].
Qed.

Lemma dict_get_set (k v x : string) (d : dict) :
  dict_get x (dict_set k v d) = if String.eqb k x then Some v else dict_get x d.
Proof.
  induction d as [|[k' v'] d IH]; cbn [dict_set dict_get]; [reflexivity|].
  destruct (String.eqb_spec k' k) as [->|Hne]; cbn [dict_get].
  - now destruct (String.eqb k x).
  - rewrite IH. destruct (String.eqb_spec k' x) as [<-|Hx]; [|reflexivity].
    destruct (String.eqb_spec k k') as [->|_]; [contradiction | reflexivity].
Qed.

Lemma index_from_keys (assets : list (string * bytes)) : forall count index,
  NoDup (map fst index) ->
  NoDup (map fst (index_from count assets index))
  /\ (forall x, In x (map fst (index_from count assets index))
                <-> In x (map fst index) \/ In x (map fst assets))
  /\ (forall x, dict_get x (index_from count assets index)
                = match last_index x assets with
                  | Some j => Some ("data_" ++ format_06d (count + N.of_nat j))
                  | None => dict_get x index
                  end).
Proof.
  induction assets as [|[p c] assets IH]; intros count index Hnd.
  - cbn [index_from map In last_index]. split; [exact Hnd|]. split; [in_cases | reflexivity].
  - cbn [index_from].
    destruct (IH (count + 1)%N _ (dict_set_nodup p ("data_" ++ format_06d count) index Hnd))
      as [H1 [H2 H3]].
    split; [exact H1|]. split.
    + intros x. rewrite H2, dict_set_key_in. cbn [map fst In]. in_cases.
    + intros x. rewrite H3. cbn [last_index].
      destruct (last_index x assets) as [j|].
      * now replace (count + 1 + N.of_nat j)%N with (count + N.of_nat (S j))%N by lia.
      * rewrite dict_get_set. destruct (String.eqb p x); [|reflexivity].
        simpl N.of_nat. now rewrite N.add_0_r.
Qed.

Lemma dict_get_in (k v : string) (d : dict) : dict_get k d = Some v -> In (k, v) d.
Proof.
  induction d as [|[k' v'] d IH]; cbn [dict_get]; [discriminate|].
  destruct (String.eqb_spec k' k) as [->|Hne].
  - intros E. injection E as ->. now left.
  - intros E. right. now apply IH.
Qed.

Lemma last_index_nth (path : string) (assets : list (string * bytes)) : forall j,
  last_index path assets = Some j ->
  exists content, nth_error assets j = Some (path, content).
Proof.
  induction assets as [|[p c] assets IH]; intros j Hlast; [discriminate|].
  cbn [last_index] in Hlast. destruct (last_index path assets) as [j'|].
  - injection Hlast as <-. apply (IH _ eq_refl).
  - destruct (String.eqb_spec p path) as [->|Hne]; [|discriminate].
    injection Hlast as <-. now exists c.
Qed.

Lemma last_index_none (path : string) (assets : list (string * bytes)) :
  last_index path assets = None <-> ~ In path (map fst assets).
Proof.
  induction assets as [|[p c] assets IH]; cbn [last_index map fst In];
    [split; [intros _ [] | reflexivity]|].
  destruct (last_index path assets) as [j|].
  - split; [discriminate|]. intros H. exfalso. apply H. right.
    destruct (In_dec string_dec path (map fst assets)) as [Hin|Hout]; [exact Hin|].
    apply IH in Hout. discriminate Hout.
  - destruct (String.eqb_spec p path) as [->|Hne].
    + split; [discriminate | intros H; exfalso; apply H; now left].
    + split; [|reflexivity]. intros _ [E | Hin]; [now apply Hne|].
      now apply (proj1 IH eq_refl).
Qed.

Lemma last_index_nodup (assets : list (string * bytes)) : forall j path content,
  NoDup (map fst assets) ->
  nth_error assets j = Some (path, content) ->
  last_index path assets = Some j.
Proof.
  induction assets as [|[p c] assets IH]; intros j path content Hnd Hnth;
    [now destruct j|].
  cbn [map fst] in Hnd. inversion Hnd as [|x l Hnotin Hnd']; subst.
  cbn [last_index]. destruct j as [|j]; cbn [nth_error] in Hnth.
  - injection Hnth as -> ->. rewrite (proj2 (last_index_none path assets) Hnotin).
    now rewrite String.eqb_refl.
  - now rewrite (IH _ _ _ Hnd' Hnth).
Qed.

Lemma dict_items_perm (rank : string -> N) (d : dict) : Permutation (dict_items rank d) d.
Proof.
  assert (Hins : forall e l, Permutation (insert_by_rank rank e l) (e :: l)).
  { intros e l. induction l as [|e' l IH]; cbn [insert_by_rank]; [reflexivity|].
    destruct (rank (fst e) <=? rank (fst e'))%N; [reflexivity|].
    rewrite IH. apply perm_swap. }
  induction d as [|e d IH]; cbn [dict_items]; [reflexivity|].
  rewrite Hins. now constructor.
Qed.

Lemma dict_items_nodup (rank : string -> N) (d : dict) :
  NoDup (map fst d) -> NoDup (map fst (dict_items rank d)).
Proof.
  apply Permutation_NoDup, Permutation_map, Permutation_sym, dict_items_perm.
Qed.

Lemma variable_injective (j j' : nat) :
  "data_" ++ format_06d (N.of_nat j) = "data_" ++ format_06d (N.of_nat j') -> j = j'.
Proof.
  intros E. apply String.eqb_eq in E. rewrite variable_eqb in E.
  apply N.eqb_eq in E. lia.
Qed.

Lemma compile_branches_serves (assets : list (string * bytes)) (l : dict) :
  Forall (fun e => plain_path (fst e) = true
                   /\ exists j content,
                        nth_error assets j = Some (fst e, content)
                        /\ snd e = "data_" ++ format_06d (N.of_nat j)) l ->
  exists codes,
    compile_branches (decls_from 0 assets) (map branch_of l) = Some codes
    /\ Forall2 (serves assets) l codes.
Proof.
  induction 1 as [|e l [Hplain [j [content [Hnth Hvar]]]] _ [codes [Hc Hserves]]].
  - exists []. split; [reflexivity | constructor].
  - exists (mkCode (list_byte_of_string (fst e)) (gzip_compress (N.of_nat j) content)
                   (list_byte_of_string (hexdigest content)) :: codes).
    split.
    + cbn [map compile_branches]. unfold branch_of at 1. rewrite Hvar.
      rewrite (compile_branch_variable _ _ _ _ _ _ Hnth (literals_plain_path _ Hplain)).
      rewrite (c_str_plain_path _ Hplain), Hc. reflexivity.
    + constructor; [|exact Hserves]. now exists j, content.
Qed.

(** A source tree of plain paths compiles to one conditional per entry of
    [index], each serving a file of its path. *)
Lemma compile_module_of (assets : list (string * bytes)) :
  forallb (fun asset => plain_path (fst asset)) assets = true ->
  exists codes,
    compile (module_of assets) = Some codes
    /\ Forall2 (serves assets) (dict_items items_rank (index_from 0 assets [])) codes.
Proof.
  intros Hplain. unfold compile, module_of. cbn [m_decls m_branches].
  rewrite decls_from_ok, decls_from_distinct. cbn [andb].
  apply compile_branches_serves. apply Forall_forall. intros e He.
  destruct (index_entry_is_asset assets e He) as [j [content [Hnth Hvar]]].
  split; [|now exists j, content].
  rewrite forallb_forall in Hplain. exact (Hplain _ (nth_error_In _ _ Hnth)).
Qed.

Lemma dispatch_serves_found (assets : list (string * bytes)) (l : dict)
    (codes : list branch_code) path j content :
  Forall2 (serves assets) l codes ->
  NoDup (map fst l) ->
  In (path, "data_" ++ format_06d (N.of_nat j)) l ->
  nth_error assets j = Some (path, content) ->
  dispatch codes (list_byte_of_string path)
  = Uncompress (gzip_compress (N.of_nat j) content)
               (list_byte_of_string (hexdigest content)).
Proof.
  intros Hserves. induction Hserves as [|e code l codes He _ IH]; intros Hnd Hin Hnth;
    [contradiction|].
  cbn [map] in Hnd. inversion Hnd as [|x l' Hnotin Hnd']; subst.
  destruct He as [j' [content' [Hnth' [Hvar ->]]]].
  cbn [dispatch bc_path bc_data bc_md5].
  destruct Hin as [-> | Hin].
  - cbn [fst snd] in *. apply variable_injective in Hvar. subst j'.
    rewrite Hnth in Hnth'. injection Hnth' as <-. now rewrite bytes_eqb_refl.
  - rewrite bytes_eqb_neq; [now apply IH|].
    intros E. apply list_byte_of_string_inj in E. apply Hnotin. rewrite <- E.
    change path with (fst (path, "data_" ++ format_06d (N.of_nat j))). now apply in_map.
Qed.

Lemma dispatch_serves_not_found (assets : list (string * bytes)) (l : dict)
    (codes : list branch_code) path :
  Forall2 (serves assets) l codes ->
  ~ In path (map fst l) ->
  dispatch codes (list_byte_of_string path) = Throws ErrorCode_InexistentItem.
Proof.
  intros Hserves. induction Hserves as [|e code l codes He _ IH]; intros Hnotin;
    [reflexivity|].
  destruct He as [j' [content' [_ [_ ->]]]].
  cbn [dispatch bc_path]. rewrite bytes_eqb_neq.
  - apply IH. intros Hin. apply Hnotin. now right.
  - intros E. apply list_byte_of_string_inj in E. apply Hnotin. now left.
Qed.

(** The lookup of a path of a source tree of plain paths decompresses and
    checks the blob of the last file with that path. *)
Lemma ReadStaticAsset_last (assets : list (string * bytes)) path j content :
  forallb (fun asset => plain_path (fst asset)) assets = true ->
  last_index path assets = Some j ->
  nth_error assets j = Some (path, content) ->
  ReadStaticAsset (module_of assets) (list_byte_of_string path)
  = Some (Uncompress (gzip_compress (N.of_nat j) content)
                     (list_byte_of_string (hexdigest content))).
Proof.
  intros Hplain Hlast Hnth. unfold ReadStaticAsset.
  destruct (compile_module_of assets Hplain) as [codes [-> Hserves]].
  destruct (index_from_keys assets 0 [] (NoDup_nil _)) as [Hnd [_ Hget]].
  f_equal. apply (dispatch_serves_found assets _ codes path j content Hserves).
  - now apply dict_items_nodup.
  - apply dict_items_in, dict_get_in. rewrite Hget, Hlast. now rewrite N.add_0_l.
  - exact Hnth.
Qed.

(** *** The round trip, for plain paths *)

Section Collaborators.

(** What the core asks of its collaborators: decompression undoes
    compression, and both sides compute the same lowercase hexadecimal MD5. *)
Hypothesis gzip_lossless : forall count content,
  GzipUncompress (gzip_compress count content) = Returns content.
Hypothesis md5_agree : forall content,
  ComputeMD5 content = list_byte_of_string (hexdigest content).

Lemma Uncompress_compressed (count : N) (content : bytes) :
  Uncompress (gzip_compress count content) (list_byte_of_string (hexdigest content))
  = Returns content.
Proof.
  unfold Uncompress. rewrite gzip_lossless, md5_agree. now rewrite bytes_eqb_refl.
Qed.

(** Every file of a source tree whose paths are distinct and plain is
    returned, bit for bit, by the lookup of its relative path. *)
Lemma ReadStaticAsset_round_trip (assets : list (string * bytes)) path content :
  NoDup (map fst assets) ->
  forallb (fun asset => plain_path (fst asset)) assets = true ->
  In (path, content) assets ->
  ReadStaticAsset (module_of assets) (list_byte_of_string path) = Some (Returns content).
Proof.
  intros Hnd Hplain Hin. destruct (In_nth_error _ _ Hin) as [j Hnth].
  rewrite (ReadStaticAsset_last assets path j content Hplain
             (last_index_nodup _ _ _ _ Hnd Hnth) Hnth).
  now rewrite Uncompress_compressed.
Qed.

End Collaborators.

(** A path that is not in a source tree of plain paths is not found. *)
Lemma ReadStaticAsset_unknown_path (assets : list (string * bytes)) path :
  forallb (fun asset => plain_path (fst asset)) assets = true ->
  ~ In path (map fst assets) ->
  ReadStaticAsset (module_of assets) (list_byte_of_string path)
  = Some (Throws ErrorCode_InexistentItem).
Proof.
  intros Hplain Hnotin. unfold ReadStaticAsset.
  destruct (compile_module_of assets Hplain) as [codes [-> Hserves]].
  destruct (index_from_keys assets 0 [] (NoDup_nil _)) as [_ [Hkeys _]].
  f_equal. apply (dispatch_serves_not_found assets _ codes path Hserves).
  intros Hin. apply Hnotin.
  apply in_map_iff in Hin as [e [<- He]]. apply dict_items_in in He.
  destruct (proj1 (Hkeys (fst e)) (in_map fst _ _ He)) as [[] | Hasset].
  exact Hasset.
Qed.

(** ** The literal encoding *)

Lemma literal_char_cases (c : byte) :
  literal_char c
  = if ((Byte.to_N c =? 34) || (Byte.to_N c =? 92))%N
    then str backslash ++ chr (Byte.to_N c)
    else spec_literal_char c.
Proof. destruct c; reflexivity. Qed.

Lemma emits_encode_one h (c : byte) :
  emits h (encode_loop h [c] 0) tt (literal_char c).
Proof.
  eapply emits_eq; [apply emits_encode_loop|].
  cbn [literal_text]. cbn [Nat.add Nat.leb]. apply string_app_nil_r.
Qed.

Lemma emits_functional {A} h (c : Py A) a a' t t' :
  emits h c a t -> emits h c a' t' -> t = t'.
Proof.
  intros H H'. specialize (H (repeat (mkFile EmptyString true EmptyString) h)
                             EmptyString EmptyString (repeat_length _ _)).
  specialize (H' (repeat (mkFile EmptyString true EmptyString) h)
                 EmptyString EmptyString (repeat_length _ _)).
  rewrite H in H'. injection H' as _ H'. apply app_inv_head in H'.
  now injection H'.
Qed.

(** C6, as amended.  Every byte of a blob, wherever it stands, is written as
    itself when it is printable and none of quote, backslash, question mark;
    the quote and the backslash are written as a backslash followed by the
    character itself; every other byte (below 32, from 127 on, and the
    question mark) is written as a backslash followed by exactly three octal
    digits.  What follows is the line break, when this was the 120th byte of
    the line, and the text of the bytes that remain. *)
Theorem literal_rendering_of_byte (c : byte) (rest : bytes) (column h : nat) :
  let i := Byte.to_N c in
  let rendering :=
    if ((i =? 34) || (i =? 92))%N then str backslash ++ chr i
    else if printable i && negb (i =? 63)%N then chr i
    else octal_escape i in
  emits h (encode_loop h (c :: rest) column) tt
    (rendering
     ++ (if (120 <=? column + 1)%nat
         then line_break ++ literal_text rest 0
         else literal_text rest (column + 1))).
Proof.
  intros i rendering. eapply emits_eq; [apply emits_encode_loop|].
  cbn [literal_text]. f_equal.
  rewrite literal_char_cases. unfold spec_literal_char. subst rendering i.
  destruct c; reflexivity.
Qed.

(** C6, as stated, fails on the quote byte: the encoder writes a backslash and
    the quote, two characters, where the claim has the three-digit octal
    escape of 34. *)
Lemma quote_is_not_octal_escaped :
  ~ (forall (c : byte) (h : nat), emits h (encode_loop h [c] 0) tt (spec_literal_char c)).
Proof.
  intros H.
  pose proof (emits_functional _ _ _ _ _ _ (H x22 0%nat) (emits_encode_one 0 x22)) as E.
  discriminate E.
Qed.

(** C7.  For every byte, the text the encoder writes for it denotes that byte
    again in a C++ string literal: alone between quotes, and in front of any
    text that follows it in the literal. *)
Theorem literal_byte_round_trip (c : byte) :
  exists text,
    (forall h, emits h (encode_loop h [c] 0) tt text)
    /\ cxx_string_literals (quoted text) = Some [c]
    /\ (forall rest, lex_in (text ++ rest) = option_map (cons c) (lex_in rest)).
Proof.
  exists (literal_char c). split; [|split].
  - intros h. apply emits_encode_one.
  - rewrite literals_quoted by apply literal_char_no_question_mark.
    rewrite lex_in_literal_char. reflexivity.
  - apply lex_in_literal_char.
Qed.

Lemma literal_text_below_120 (content : bytes) : forall column,
  (column + List.length content < 120)%nat ->
  literal_text content column = unwrapped_text content.
Proof.
  induction content as [|c content IH]; intros column Hlt; [reflexivity|].
  cbn [literal_text List.length] in *.
  replace (120 <=? column + 1)%nat with false by (symmetry; apply Nat.leb_gt; lia).
  rewrite IH by lia. reflexivity.
Qed.

Lemma literal_text_chunk (chunk rest : bytes) : forall column,
  chunk <> [] ->
  (column + List.length chunk = 120)%nat ->
  literal_text (chunk ++ rest)%list column
  = unwrapped_text chunk ++ line_break ++ literal_text rest 0.
Proof.
  induction chunk as [|c chunk IH]; intros column Hne Hlen; [contradiction|].
  cbn [literal_text List.length app] in *.
  destruct chunk as [|c' chunk'].
  - cbn [List.length] in Hlen.
    replace (120 <=? column + 1)%nat with true by (symmetry; apply Nat.leb_le; lia).
    unfold unwrapped_text. cbn [map join fold_right app].
    now rewrite string_app_nil_r.
  - replace (120 <=? column + 1)%nat with false
      by (symmetry; apply Nat.leb_gt; cbn [List.length] in Hlen; lia).
    rewrite IH; [| discriminate | cbn [List.length] in *; lia].
    change (unwrapped_text (c :: c' :: chunk'))
      with (literal_char c ++ unwrapped_text (c' :: chunk')).
    now rewrite string_app_assoc.
Qed.

(** C9, as amended.  The literal is closed and reopened after every 120
    encoded bytes (bytes, not text columns: a byte takes one, two or four
    characters), and the break has no semantic effect: the wrapped literal
    and the unwrapped encoding denote the same bytes, those of the blob. *)
Theorem wrapping_every_120_bytes (content chunk rest : bytes) (h : nat) :
  emits h (encode_loop h content 0) tt (literal_text content 0)
  /\ cxx_string_literals (quoted (literal_text content 0)) = Some content
  /\ cxx_string_literals (quoted (unwrapped_text content)) = Some content
  /\ ((List.length content < 120)%nat -> literal_text content 0 = unwrapped_text content)
  /\ (List.length chunk = 120%nat ->
      literal_text (chunk ++ rest)%list 0
      = unwrapped_text chunk ++ line_break ++ literal_text rest 0).
Proof.
  split; [|split; [|split; [|split]]].
  - apply emits_encode_loop.
  - apply literals_literal_text.
  - apply literals_unwrapped_text.
  - intros Hlt. now apply literal_text_below_120.
  - intros Hlen. apply literal_text_chunk; [|exact Hlen].
    intros ->. discriminate Hlen.
Qed.

(** C9, as stated, fails on 31 zero bytes: each is written as a four-character
    escape, so the literal is one line of 124 characters and is not broken at
    column 120. *)
Lemma line_wider_than_120 :
  ~ (forall (content : bytes) (h : nat) (text : string),
       emits h (encode_loop h content 0) tt text ->
       Forall (fun width => (width <= 120)%nat) (line_widths text)).
Proof.
  intros H.
  specialize (H (repeat x00 31) 0%nat _ (emits_encode_loop 0 (repeat x00 31) 0)).
  assert (E : line_widths (literal_text (repeat x00 31) 0) = [124%nat])
    by (vm_compute; reflexivity).
  rewrite E in H. inversion H as [|w l Hw _]; subst. lia.
Qed.

(** ** Declarations and conditionals of the generated unit *)

Lemma nth_error_decls_from (assets : list (string * bytes)) : forall count j path content,
  nth_error assets j = Some (path, content) ->
  nth_error (decls_from count assets) (2 * j)
  = Some (ArrayDecl ("data_" ++ format_06d (count + N.of_nat j))
                    (len (gzip_compress (count + N.of_nat j) content) + 1)
                    (quoted (literal_text (gzip_compress (count + N.of_nat j) content) 0)))
  /\ nth_error (decls_from count assets) (2 * j + 1)
     = Some (CStrDecl (("data_" ++ format_06d (count + N.of_nat j)) ++ "_md5")
                      (quoted (hexdigest content))).
Proof.
  induction assets as [|[p c] assets IH]; intros count j path content Hnth.
  - now destruct j.
  - destruct j as [|j].
    + injection Hnth as -> ->. simpl N.of_nat. rewrite N.add_0_r. now split.
    + replace (2 * S j)%nat with (S (S (2 * j))) by lia.
      replace (count + N.of_nat (S j))%N with (count + 1 + N.of_nat j)%N by lia.
      cbn [decls_from Nat.add nth_error]. apply (IH _ _ _ _ Hnth).
Qed.

Lemma nth_error_update_nth_other {A} (f : A -> A) (l : list A) : forall n m,
  n <> m -> nth_error (update_nth n f l) m = nth_error l m.
Proof.
  induction l as [|x l IH]; intros n m Hne; [now destruct n|].
  destruct n as [|n], m as [|m]; cbn [update_nth nth_error]; try reflexivity.
  - contradiction.
  - apply IH. now intros ->.
Qed.

Lemma file_content_last (files : list file_object) (name data : string) (closed : bool)
    (g : option nat) :
  file_content (mkStore (files ++ [mkFile name closed data])%list g) name = Some data.
Proof.
  unfold file_content. cbn [st_files]. rewrite rev_app_distr. cbn [rev app find fo_name].
  now rewrite String.eqb_refl.
Qed.

(** The declarations of an asset stand side by side in the unit. *)
Lemma decls_from_split (assets : list (string * bytes)) j path content :
  nth_error assets j = Some (path, content) ->
  exists before after,
    decls_from 0 assets
    = (before
       ++ ArrayDecl ("data_" ++ format_06d (N.of_nat j))
                    (len (gzip_compress (N.of_nat j) content) + 1)
                    (quoted (literal_text (gzip_compress (N.of_nat j) content) 0))
       :: CStrDecl (("data_" ++ format_06d (N.of_nat j)) ++ "_md5")
                   (quoted (hexdigest content))
       :: after)%list.
Proof.
  intros Hnth. destruct (nth_error_split _ _ Hnth) as [a1 [a2 [-> Hlen]]].
  exists (decls_from 0 a1), (decls_from (N.of_nat j + 1) a2).
  rewrite decls_from_app, Hlen, N.add_0_l. reflexivity.
Qed.

(** Every asset the traversal yields is a file of the walk, with the content
    read from it. *)
Lemma read_files_in os SOURCE root files : forall assets path content,
  read_files os SOURCE root files = Some assets ->
  In (path, content) assets ->
  exists f,
    In f files
    /\ path = os_path_relpath os (os_path_join os root f) SOURCE
    /\ read_binary os (os_path_join os root f) = Some content.
Proof.
  induction files as [|f files IH]; intros assets path content Hread Hin.
  - injection Hread as <-. contradiction.
  - cbn [read_files] in Hread.
    destruct (read_binary os (os_path_join os root f)) as [c|] eqn:Hc; [|discriminate].
    destruct (read_files os SOURCE root files) as [rest|] eqn:Hr; [|discriminate].
    injection Hread as <-. destruct Hin as [E | Hin].
    + injection E as <- <-. exists f. split; [now left | now split].
    + destruct (IH _ _ _ eq_refl Hin) as [f' [Hf' H]]. exists f'. split; [now right | exact H].
Qed.

Lemma read_walk_in os SOURCE entries : forall assets path content,
  read_walk os SOURCE entries = Some assets ->
  In (path, content) assets ->
  exists root dirs files f,
    In (root, dirs, files) entries
    /\ In f files
    /\ path = os_path_relpath os (os_path_join os root f) SOURCE
    /\ read_binary os (os_path_join os root f) = Some content.
Proof.
  induction entries as [|[[root dirs] files] entries IH]; intros assets path content Hread Hin.
  - injection Hread as <-. contradiction.
  - cbn [read_walk] in Hread.
    destruct (read_files os SOURCE root files) as [a|] eqn:Ha; [|discriminate].
    destruct (read_walk os SOURCE entries) as [b|] eqn:Hb; [|discriminate].
    injection Hread as <-. apply in_app_or in Hin as [Hin | Hin].
    + destruct (read_files_in _ _ _ _ _ _ _ Ha Hin) as [f [Hf H]].
      exists root, dirs, files, f. split; [now left | now split].
    + destruct (IH _ _ _ eq_refl Hin) as [r [d [fs [f [He H]]]]].
      exists r, d, fs, f. split; [now right | exact H].
Qed.

(** ** The claims on the encoder *)

(** C2.  In a run of the script that ends normally, for the file at position
    [j] of the traversal: the content the checksum is computed from is the
    content read from that file; the target holds, directly after the array
    of the compressed content, the constant named as the array with the
    suffix [_md5], whose literal is the lowercase hexadecimal rendering of
    the MD5 digest of that content, not of the compressed content;
    [WriteChecksum] writes that line; its value as a C string is the
    hexadecimal text; the text has 32 characters when the digest has 128
    bits. *)
Theorem checksum_of_original_bytes os (argv : list string) (s : store) assets j path content :
  List.length argv = 3%nat ->
  os_path_isdir os (nth 1 argv EmptyString) = true ->
  os_open_w os (nth 2 argv EmptyString) = true ->
  read_assets os (nth 1 argv EmptyString) = Some assets ->
  forallb (fun asset => os_encodable os (fst asset)) assets = true ->
  nth_error assets j = Some (path, content) ->
  let variable := "data_" ++ format_06d (N.of_nat j) in
  let compressed := gzip_compress (N.of_nat j) content in
  let checksum_line :=
    "static const char* " ++ variable ++ "_md5 = " ++ str dquote
    ++ join (map hex_byte (md5 content)) ++ str dquote ++ ";" ++ nl ++ nl in
  (exists root dirs files f,
     In (root, dirs, files) (os_walk os (nth 1 argv EmptyString))
     /\ In f files
     /\ path = os_path_relpath os (os_path_join os root f) (nth 1 argv EmptyString)
     /\ read_binary os (os_path_join os root f) = Some content)
  /\ (exists before after,
        file_content (snd (main os argv s)) (nth 2 argv EmptyString)
        = Some (before
                ++ render_decl (ArrayDecl variable (len compressed + 1)
                                          (quoted (literal_text compressed 0)))
                ++ checksum_line ++ after))
  /\ (forall h f, emits h (WriteChecksum f (variable ++ "_md5") content) tt checksum_line)
  /\ option_map c_str (cxx_string_literals (quoted (hexdigest content)))
     = Some (list_byte_of_string (join (map hex_byte (md5 content))))
  /\ (List.length (md5 content) = 16%nat -> String.length (hexdigest content) = 32%nat).
Proof.
  intros Hlen Hdir Hopen Hread Henc Hnth variable compressed checksum_line.
  assert (Hline : render_decl (CStrDecl (variable ++ "_md5") (quoted (hexdigest content)))
                  = checksum_line).
  { unfold render_decl, quoted, checksum_line, hexdigest.
    now rewrite !string_app_assoc. }
  split; [|split; [|split; [|split]]].
  - exact (read_walk_in _ _ _ _ _ _ Hread (nth_error_In _ _ Hnth)).
  - destruct (decls_from_split assets j path content Hnth) as [before [after Hsplit]].
    rewrite (main_writes_module os argv s assets Hlen Hdir Hopen Hread Henc). cbn [snd].
    rewrite file_content_last. unfold render, module_of. cbn [m_decls m_branches].
    rewrite Hsplit, map_app, join_app. cbn [map].
    change (join (render_decl ?a :: render_decl ?c :: ?r))
      with (render_decl a ++ render_decl c ++ join r).
    fold variable compressed. rewrite Hline.
    eexists (preamble ++ join (map render_decl before)), _.
    rewrite !string_app_assoc. reflexivity.
  - intros h f. eapply emits_eq; [apply emits_WriteChecksum | exact Hline].
  - rewrite literals_hexdigest. cbn [option_map].
    now rewrite (c_str_plain_path _ (plain_path_hexdigest content)).
  - intros H16. rewrite length_hexdigest, H16. reflexivity.
Qed.

(** C5.  In a run of the script that ends normally on a tree of distinct
    paths, for the file at position [j], with a compressed form of [N]
    bytes: [EncodeFileAsCString] declares the array with size [N + 1]; the
    array holds the [N] bytes and one terminating zero; the dispatch routine
    the script writes has the conditional of this file, whose call passes
    the array and [sizeof] of the same array less one; and, whenever the
    path literal of that conditional has a value, the conditional hands to
    [Uncompress] the first [N + 1 - 1 = N] bytes of the array, which are the
    compressed form itself. *)
Theorem sizeof_minus_one_is_compressed_length os (argv : list string) (s : store) assets
    j path content (value : bytes) :
  List.length argv = 3%nat ->
  os_path_isdir os (nth 1 argv EmptyString) = true ->
  os_open_w os (nth 2 argv EmptyString) = true ->
  read_assets os (nth 1 argv EmptyString) = Some assets ->
  forallb (fun asset => os_encodable os (fst asset)) assets = true ->
  NoDup (map fst assets) ->
  nth_error assets j = Some (path, content) ->
  cxx_string_literals (quoted path) = Some value ->
  let variable := "data_" ++ format_06d (N.of_nat j) in
  let compressed := gzip_compress (N.of_nat j) content in
  let array := ArrayDecl variable (len compressed + 1) (quoted (literal_text compressed 0)) in
  let conditional := mkBranch (quoted path) variable variable 1 (variable ++ "_md5") in
  let conditional_text :=
    "  if (path == " ++ str dquote ++ path ++ str dquote ++ ")" ++ nl
    ++ "  {" ++ nl
    ++ "    Uncompress(target, " ++ variable ++ ", sizeof(" ++ variable ++ ") - 1, "
    ++ variable ++ "_md5);" ++ nl
    ++ "    return;" ++ nl
    ++ "  }" ++ nl ++ nl in
  file_content (snd (main os argv s)) (nth 2 argv EmptyString)
  = Some (render (module_of assets))
  /\ resolve variable (m_decls (module_of assets)) = Some array
  /\ In conditional (m_branches (module_of assets))
  /\ (forall h, emits h (EncodeFileAsCString h variable compressed) tt
                  ("static const uint8_t " ++ variable ++ "["
                   ++ format_d (len compressed + 1) ++ "] = " ++ nl ++ "  "
                   ++ quoted (literal_text compressed 0) ++ ";" ++ nl ++ nl))
  /\ (forall h, emits h (dispatch_body os (path, variable) tt) tt conditional_text)
  /\ render_branch conditional = conditional_text
  /\ array_contents (len compressed + 1) (quoted (literal_text compressed 0))
     = Some (compressed ++ [x00])%list
  /\ compile_branch (m_decls (module_of assets)) conditional
     = Some (mkCode (c_str value) compressed (list_byte_of_string (hexdigest content)))
  /\ len compressed = (len compressed + 1 - 1)%N.
Proof.
  intros Hlen Hdir Hopen Hread Henc Hnd Hnth Hvalue
         variable compressed array conditional conditional_text.
  assert (Hpath : os_encodable os path = true).
  { rewrite forallb_forall in Henc. exact (Henc _ (nth_error_In _ _ Hnth)). }
  assert (Htext : render_branch conditional = conditional_text).
  { unfold render_branch, conditional, conditional_text, quoted.
    cbn [br_literal br_data br_sizeof br_minus br_md5].
    rewrite !string_app_assoc. reflexivity. }
  split; [|split; [|split; [|split; [|split; [|split; [|split; [|split]]]]]]].
  - rewrite (main_writes_module os argv s assets Hlen Hdir Hopen Hread Henc). cbn [snd].
    apply file_content_last.
  - pose proof (resolve_variable assets 0 j path content Hnth) as H.
    now rewrite N.add_0_l in H.
  - unfold module_of. cbn [m_branches].
    change conditional with (branch_of (path, variable)). apply in_map.
    apply dict_items_in, dict_get_in.
    destruct (index_from_keys assets 0 [] (NoDup_nil _)) as [_ [_ Hget]].
    rewrite Hget, (last_index_nodup _ _ _ _ Hnd Hnth). now rewrite N.add_0_l.
  - intros h. apply emits_EncodeFileAsCString.
  - intros h. rewrite <- Htext.
    exact (emits_dispatch_body h os (path, variable) Hpath).
  - exact Htext.
  - apply array_contents_literal.
  - exact (compile_branch_variable assets j path content (quoted path) value Hnth Hvalue).
  - lia.
Qed.

(** C8.  With a number of arguments other than three, and with a source
    argument that is not an existing directory, the script raises (the usage
    message, the nonexistent-folder message) and the store is the one it
    started from: no file object has been opened, no character written. *)
Theorem main_fails_before_output os (argv : list string) (s : store) :
  List.length argv <> 3%nat \/ os_path_isdir os (nth 1 argv EmptyString) = false ->
  exists msg,
    main os argv s = (inl (Exception msg), s)
    /\ (List.length argv <> 3%nat ->
        msg = "Usage: " ++ nth 0 argv EmptyString ++ " [source folder] [target C++]")
    /\ (List.length argv = 3%nat ->
        msg = "Nonexistent source folder: " ++ nth 1 argv EmptyString)
    /\ file_content (snd (main os argv s)) (nth 2 argv EmptyString)
       = file_content s (nth 2 argv EmptyString).
Proof.
  intros H. unfold main.
  destruct (Nat.eqb_spec (List.length argv) 3) as [Hlen | Hlen]; cbn [negb].
  - destruct H as [H | H]; [contradiction|]. rewrite H. cbn [negb].
    eexists. split; [reflexivity|]. split; [intros; contradiction|].
    split; reflexivity.
  - eexists. split; [reflexivity|]. split; [reflexivity|].
    split; [intros; contradiction | reflexivity].
Qed.

(** C10.  [WriteChecksum] does not depend on its parameter [f]: the constant
    goes to the file object the global [g] is bound to, and a file object
    passed as [f] that is not [g] is left as it was.  The call raises a
    [NameError] while [g] is unbound (before the [with] block) and a
    [ValueError] once the file object of [g] is closed (after the block);
    inside the block it succeeds. *)
Theorem WriteChecksum_writes_to_global_g (f : nat) (variable : string) (content : bytes)
    (s : store) :
  let text := render_decl (CStrDecl variable (quoted (hexdigest content))) in
  (forall f', WriteChecksum f' variable content s = WriteChecksum f variable content s)
  /\ (st_g s = None ->
      WriteChecksum f variable content s = (inl (NameError "g"), s))
  /\ (forall g fo,
        st_g s = Some g -> nth_error (st_files s) g = Some fo -> fo_closed fo = false ->
        WriteChecksum f variable content s
        = (inr tt, mkStore (update_nth g (append_data text) (st_files s)) (Some g))
        /\ (f <> g ->
            nth_error (st_files (snd (WriteChecksum f variable content s))) f
            = nth_error (st_files s) f))
  /\ (forall g fo,
        st_g s = Some g -> nth_error (st_files s) g = Some fo -> fo_closed fo = true ->
        WriteChecksum f variable content s
        = (inl (ValueError "I/O operation on closed file."), s))
  /\ (forall TARGET,
        with_open_w_as_g TARGET (WriteChecksum f variable content) s
        = (inr tt, mkStore (st_files s ++ [mkFile TARGET true text])%list
                           (Some (List.length (st_files s)))))
  /\ (forall TARGET,
        (with_open_w_as_g TARGET (ret tt) ;; WriteChecksum f variable content) s
        = (inl (ValueError "I/O operation on closed file."),
           mkStore (st_files s ++ [mkFile TARGET true EmptyString])%list
                   (Some (List.length (st_files s))))).
Proof.
  intros text. split; [|split; [|split; [|split; [|split]]]].
  - reflexivity.
  - intros Hg. unfold WriteChecksum, bind, global_g. now rewrite Hg.
  - intros g fo Hg Hfo Hopen.
    assert (E : WriteChecksum f variable content s
                = (inr tt, mkStore (update_nth g (append_data text) (st_files s)) (Some g))).
    { unfold WriteChecksum, bind, global_g, write. rewrite Hg, Hfo, Hopen.
      subst text. unfold render_decl, quoted. now rewrite !string_app_assoc, Hg. }
    split; [exact E|]. intros Hne. rewrite E. cbn [snd st_files].
    apply nth_error_update_nth_other. intros Eg. apply Hne. now symmetry.
  - intros g fo Hg Hfo Hclosed.
    unfold WriteChecksum, bind, global_g, write. now rewrite Hg, Hfo, Hclosed.
  - intros TARGET. unfold with_open_w_as_g, open_w.
    unfold bind at 1. unfold bind_global_g at 1. cbn [st_files st_g].
    rewrite (emits_WriteChecksum _ f variable content (st_files s) TARGET EmptyString eq_refl).
    unfold close. cbn [snd st_files st_g]. now rewrite update_nth_last.
  - intros TARGET. unfold bind at 1, with_open_w_as_g, open_w.
    unfold bind at 1. unfold bind_global_g at 1, ret. cbn [st_files st_g].
    unfold close. cbn [snd st_files st_g]. rewrite update_nth_last.
    unfold WriteChecksum, bind, global_g, write. cbn [st_g st_files].
    rewrite nth_error_last. reflexivity.
Qed.

(** The scenario of the specification: a tree with [a.txt] and [sub/b.bin];
    both are returned bit for bit, and [missing.txt] is not found. *)
Lemma scenario_two_files :
  (forall count content, GzipUncompress (gzip_compress count content) = Returns content) ->
  (forall content, ComputeMD5 content = list_byte_of_string (hexdigest content)) ->
  let tree := [("a.txt", [x68; x65; x6c; x6c; x6f]); ("sub/b.bin", [x00; x3f; x22; x5c])] in
  ReadStaticAsset (module_of tree) (list_byte_of_string "a.txt")
  = Some (Returns [x68; x65; x6c; x6c; x6f])
  /\ ReadStaticAsset (module_of tree) (list_byte_of_string "sub/b.bin")
     = Some (Returns [x00; x3f; x22; x5c])
  /\ ReadStaticAsset (module_of tree) (list_byte_of_string "missing.txt")
     = Some (Throws ErrorCode_InexistentItem).
Proof.
  intros Hgz Hmd5 tree.
  assert (Hnd : NoDup (map fst tree)).
  { repeat constructor; [intros [E | []]; discriminate E | intros []]. }
  split; [|split].
  - apply (ReadStaticAsset_round_trip Hgz Hmd5 tree _ _ Hnd eq_refl). now left.
  - apply (ReadStaticAsset_round_trip Hgz Hmd5 tree _ _ Hnd eq_refl). right. now left.
  - apply (ReadStaticAsset_unknown_path tree _ eq_refl).
    intros [E | [E | []]]; discriminate E.
Qed.

(** ** Further properties of the script *)

(** X1.  Run with three arguments, an existing source folder, a target that
    can be opened for writing, files that can all be read and relative paths
    that the encoding of the target can represent, the script ends normally;
    the target file holds exactly the printed unit of the assets, whatever
    was in a file of that name before; the file object is closed; the file
    objects that existed before are as they were. *)
Theorem successful_run_writes_the_unit os (argv : list string) (s : store) assets :
  List.length argv = 3%nat ->
  os_path_isdir os (nth 1 argv EmptyString) = true ->
  os_open_w os (nth 2 argv EmptyString) = true ->
  read_assets os (nth 1 argv EmptyString) = Some assets ->
  forallb (fun asset => os_encodable os (fst asset)) assets = true ->
  fst (main os argv s) = inr tt
  /\ file_content (snd (main os argv s)) (nth 2 argv EmptyString)
     = Some (render (module_of assets))
  /\ st_files (snd (main os argv s))
     = (st_files s ++ [mkFile (nth 2 argv EmptyString) true (render (module_of assets))])%list.
Proof.
  intros Hlen Hdir Hopen Hread Henc.
  rewrite (main_writes_module os argv s assets Hlen Hdir Hopen Hread Henc).
  cbn [fst snd st_files]. split; [reflexivity|]. split; [|reflexivity].
  apply file_content_last.
Qed.

Lemma raises_bind_l {A B} h (c : Py A) (k : A -> Py B) e t :
  raises h c e t -> raises h (bind c k) e t.
Proof. intros Hc pre name data Hlen. unfold bind. now rewrite (Hc pre name data Hlen). Qed.

Lemma raises_bind_r {A B} h (c : Py A) (k : A -> Py B) a e t1 t2 :
  emits h c a t1 -> raises h (k a) e t2 -> raises h (bind c k) e (t1 ++ t2).
Proof.
  intros Hc Hk pre name data Hlen. unfold bind.
  rewrite (Hc pre name data Hlen), (Hk pre name (data ++ t1) Hlen).
  now rewrite string_app_assoc.
Qed.

Lemma raises_eq {A} h (c : Py A) e t t' : raises h c e t -> t = t' -> raises h c e t'.
Proof. now intros H <-. Qed.

Lemma raises_file_body h os SOURCE root f index count :
  read_binary os (os_path_join os root f) = None ->
  raises h (file_body os SOURCE root f (index, count))
    (OSError (os_path_join os root f)) EmptyString.
Proof.
  intros Hread. unfold file_body. rewrite Hread. apply raises_bind_l.
  intros pre name data _. unfold raise. now rewrite string_app_nil_r.
Qed.

Lemma scan_files_done os SOURCE root files : forall done,
  scan_files os SOURCE root files = (done, None) ->
  read_files os SOURCE root files = Some done.
Proof.
  induction files as [|f files IH]; intros done Hscan; cbn [scan_files read_files] in *.
  - now injection Hscan as <-.
  - destruct (read_binary os (os_path_join os root f)) as [content|]; [|discriminate].
    destruct (scan_files os SOURCE root files) as [d e].
    injection Hscan as <- ->. now rewrite (IH d eq_refl).
Qed.

Lemma raises_files h os SOURCE root files : forall index count done p,
  scan_files os SOURCE root files = (done, Some p) ->
  read_binary os p = None
  /\ raises h (for_each (file_body os SOURCE root) files (index, count))
       (OSError p) (join (map render_decl (decls_from count done))).
Proof.
  induction files as [|f files IH]; intros index count done p Hscan; [discriminate|].
  cbn [scan_files] in Hscan.
  destruct (read_binary os (os_path_join os root f)) as [content|] eqn:Hc.
  - destruct (scan_files os SOURCE root files) as [d e]. injection Hscan as <- ->.
    destruct (IH (index_from count
                    [(os_path_relpath os (os_path_join os root f) SOURCE, content)] index)
                 (count + 1)%N d p eq_refl) as [Hp Hraise].
    split; [exact Hp|]. cbn [for_each]. eapply raises_eq.
    + eapply raises_bind_r; [apply (emits_file_body _ _ _ _ _ _ _ _ Hc) | exact Hraise].
    + rewrite <- join_app, <- map_app.
      change ((os_path_relpath os (os_path_join os root f) SOURCE, content) :: d)
        with ([(os_path_relpath os (os_path_join os root f) SOURCE, content)] ++ d)%list.
      now rewrite decls_from_app.
  - injection Hscan as <- <-. split; [exact Hc|].
    cbn [for_each]. apply raises_bind_l. now apply raises_file_body.
Qed.

Lemma raises_walk h os SOURCE entries : forall index count done p,
  scan_walk os SOURCE entries = (done, Some p) ->
  read_binary os p = None
  /\ raises h (for_each (fun '(root, dirs, files) st =>
                           for_each (file_body os SOURCE root) files st)
                        entries (index, count))
       (OSError p) (join (map render_decl (decls_from count done))).
Proof.
  induction entries as [|[[root dirs] files] entries IH]; intros index count done p Hscan;
    [discriminate|].
  cbn [scan_walk] in Hscan.
  destruct (scan_files os SOURCE root files) as [a [q|]] eqn:Ha.
  - injection Hscan as <- <-.
    destruct (raises_files h os SOURCE root files index count a q Ha) as [Hp Hraise].
    split; [exact Hp|]. cbn [for_each]. now apply raises_bind_l.
  - destruct (scan_walk os SOURCE entries) as [d e]. injection Hscan as <- ->.
    destruct (IH (index_from count a index) (count + N.of_nat (List.length a))%N d p eq_refl)
      as [Hp Hraise].
    split; [exact Hp|]. cbn [for_each]. eapply raises_eq.
    + eapply raises_bind_r;
        [apply (emits_files _ _ _ _ _ _ _ _ (scan_files_done _ _ _ _ _ Ha)) | exact Hraise].
    + now rewrite decls_from_app, map_app, join_app.
Qed.

(** X2.  When the target can be opened and [p] is the first file of the
    traversal that cannot be read, the files before it being [done], the
    script leaves by the [OSError] of [p]; the target file is closed and
    holds the includes, the routine [Uncompress] and the declarations of the
    files of [done], in order, and no dispatch routine. *)
Theorem unreadable_file_aborts_the_run os (argv : list string) (s : store) done p :
  List.length argv = 3%nat ->
  os_path_isdir os (nth 1 argv EmptyString) = true ->
  os_open_w os (nth 2 argv EmptyString) = true ->
  scan_walk os (nth 1 argv EmptyString) (os_walk os (nth 1 argv EmptyString))
  = (done, Some p) ->
  read_binary os p = None
  /\ main os argv s
     = (inl (OSError p),
        mkStore (st_files s
                 ++ [mkFile (nth 2 argv EmptyString) true
                       (preamble ++ join (map render_decl (decls_from 0 done)))])%list
                (Some (List.length (st_files s)))).
Proof.
  intros Hlen Hdir Hopen Hscan.
  destruct (raises_walk (List.length (st_files s)) os (nth 1 argv EmptyString) _ [] 0%N
              done p Hscan) as [Hp Hraise].
  split; [exact Hp|].
  unfold main. rewrite Hlen, Hdir. cbn [Nat.eqb negb].
  unfold with_open_as_g. rewrite Hopen. unfold with_open_w_as_g, open_w.
  set (h := List.length (st_files s)) in *.
  set (body := g_write preamble ;; _).
  assert (Hbody : raises h body (OSError p)
                    (preamble ++ join (map render_decl (decls_from 0 done)))).
  { subst body. eapply raises_bind_r; [apply emits_g_write|].
    apply raises_bind_l. exact Hraise. }
  unfold bind at 1. unfold bind_global_g at 1. cbn [st_files st_g].
  rewrite (Hbody (st_files s) (nth 2 argv EmptyString) EmptyString eq_refl).
  unfold close. cbn [snd st_files st_g]. subst h. rewrite update_nth_last.
  reflexivity.
Qed.

(** X3.  End to end, for a run that ends normally on a source tree whose
    relative paths are distinct and made of printable ASCII characters other
    than quote, backslash and question mark: the text the script leaves in
    the target file is the text of a unit whose lookup of the relative path
    of any file returns the content of that file, bit for bit, provided
    decompression undoes compression and both sides compute the same
    hexadecimal MD5. *)
Theorem end_to_end_round_trip os (argv : list string) (s : store) assets path content :
  (forall count c, GzipUncompress (gzip_compress count c) = Returns c) ->
  (forall c, ComputeMD5 c = list_byte_of_string (hexdigest c)) ->
  List.length argv = 3%nat ->
  os_path_isdir os (nth 1 argv EmptyString) = true ->
  os_open_w os (nth 2 argv EmptyString) = true ->
  read_assets os (nth 1 argv EmptyString) = Some assets ->
  forallb (fun asset => os_encodable os (fst asset)) assets = true ->
  NoDup (map fst assets) ->
  forallb (fun asset => plain_path (fst asset)) assets = true ->
  In (path, content) assets ->
  exists m,
    file_content (snd (main os argv s)) (nth 2 argv EmptyString) = Some (render m)
    /\ ReadStaticAsset m (list_byte_of_string path) = Some (Returns content).
Proof.
  intros Hgz Hmd5 Hlen Hdir Hopen Hread Henc Hnd Hplain Hin.
  exists (module_of assets). split.
  - rewrite (main_writes_module os argv s assets Hlen Hdir Hopen Hread Henc). cbn [snd].
    apply file_content_last.
  - exact (ReadStaticAsset_round_trip Hgz Hmd5 assets path content Hnd Hplain Hin).
Qed.

(** X4.  End to end, for a run that ends normally on a source tree whose
    relative paths are made of printable ASCII characters other than quote,
    backslash and question mark: in the unit the script leaves in the target
    file, a request that is the path of no file, be it any sequence of bytes,
    ends in [ErrorCode_InexistentItem]: no blob is decompressed and no
    checksum is compared.  This covers the empty tree. *)
Theorem request_of_no_file_is_not_found os (argv : list string) (s : store) assets
    (request : bytes) :
  List.length argv = 3%nat ->
  os_path_isdir os (nth 1 argv EmptyString) = true ->
  os_open_w os (nth 2 argv EmptyString) = true ->
  read_assets os (nth 1 argv EmptyString) = Some assets ->
  forallb (fun asset => os_encodable os (fst asset)) assets = true ->
  forallb (fun asset => plain_path (fst asset)) assets = true ->
  (forall path, In path (map fst assets) -> list_byte_of_string path <> request) ->
  exists m,
    file_content (snd (main os argv s)) (nth 2 argv EmptyString) = Some (render m)
    /\ ReadStaticAsset m request = Some (Throws ErrorCode_InexistentItem).
Proof.
  intros Hlen Hdir Hopen Hread Henc Hplain Hnone. exists (module_of assets). split.
  - rewrite (main_writes_module os argv s assets Hlen Hdir Hopen Hread Henc). cbn [snd].
    apply file_content_last.
  - rewrite <- (list_byte_of_string_of_list_byte request).
    apply (ReadStaticAsset_unknown_path assets _ Hplain).
    intros Hin. apply (Hnone _ Hin). apply list_byte_of_string_of_list_byte.
Qed.

Lemma NoDup_map_injective {A B} (f : A -> B) (l : list A) :
  (forall a b, f a = f b -> a = b) -> NoDup l -> NoDup (map f l).
Proof.
  intros Hinj Hnd. induction Hnd as [|x l Hnotin Hnd IH]; cbn [map]; constructor.
  - intros Hin. apply in_map_iff in Hin as [y [E Hy]].
    apply Hinj in E. subst y. now apply Hnotin.
  - exact IH.
Qed.

Lemma quoted_injective (a b : string) : quoted a = quoted b -> a = b.
Proof.
  unfold quoted. cbn [str append]. intros E. injection E as E.
  revert b E. induction a as [|x a IHa]; intros [|y b] E; cbn [append] in E.
  - reflexivity.
  - injection E as _ E. destruct b; discriminate E.
  - injection E as _ E. destruct a; discriminate E.
  - injection E as -> E. now rewrite (IHa _ E).
Qed.

Lemma in_dict_get (k v : string) (d : dict) :
  NoDup (map fst d) -> In (k, v) d -> dict_get k d = Some v.
Proof.
  induction d as [|[k' v'] d IH]; intros Hnd Hin; [contradiction|].
  cbn [map fst] in Hnd. inversion Hnd as [|x l Hnotin Hnd']; subst.
  cbn [dict_get]. destruct Hin as [E | Hin].
  - injection E as -> ->. now rewrite String.eqb_refl.
  - destruct (String.eqb_spec k' k) as [->|Hne]; [|now apply IH].
    exfalso. apply Hnotin. change k with (fst (k, v)). now apply in_map.
Qed.

(** X5.  In a run that ends normally, whatever the traversal yields and in
    whatever order [items()] does, the dispatch routine in the target has
    exactly one conditional for every relative path of the tree and none for
    any other: no two conditionals compare with the same literal, and the
    conditionals are exactly those that compare with a path of the tree and
    pass the variable of the last file with that path. *)
Theorem one_conditional_per_path os (argv : list string) (s : store) assets :
  List.length argv = 3%nat ->
  os_path_isdir os (nth 1 argv EmptyString) = true ->
  os_open_w os (nth 2 argv EmptyString) = true ->
  read_assets os (nth 1 argv EmptyString) = Some assets ->
  forallb (fun asset => os_encodable os (fst asset)) assets = true ->
  file_content (snd (main os argv s)) (nth 2 argv EmptyString)
  = Some (render (module_of assets))
  /\ NoDup (map br_literal (m_branches (module_of assets)))
  /\ (forall path, In path (map fst assets)
                   <-> In (quoted path) (map br_literal (m_branches (module_of assets))))
  /\ (forall b, In b (m_branches (module_of assets))
                <-> exists path j,
                      last_index path assets = Some j
                      /\ b = mkBranch (quoted path)
                                      ("data_" ++ format_06d (N.of_nat j))
                                      ("data_" ++ format_06d (N.of_nat j)) 1
                                      (("data_" ++ format_06d (N.of_nat j)) ++ "_md5")).
Proof.
  intros Hlen Hdir Hopen Hread Henc.
  destruct (index_from_keys assets 0 [] (NoDup_nil _)) as [Hnd [Hkeys Hget]].
  assert (Hliterals : map br_literal (m_branches (module_of assets))
                      = map quoted (map fst (dict_items items_rank (index_from 0 assets [])))).
  { unfold module_of. cbn [m_branches]. now rewrite !map_map. }
  split; [|split; [|split]].
  - rewrite (main_writes_module os argv s assets Hlen Hdir Hopen Hread Henc). cbn [snd].
    apply file_content_last.
  - rewrite Hliterals. apply NoDup_map_injective; [exact quoted_injective|].
    now apply dict_items_nodup.
  - intros path. rewrite Hliterals. split.
    + intros Hin. apply in_map.
      assert (Hk : In path (map fst (index_from 0 assets []))) by (apply Hkeys; now right).
      apply in_map_iff in Hk as [e [<- He]]. apply in_map. now apply dict_items_in.
    + intros Hin. apply in_map_iff in Hin as [k [Ek Hk]].
      apply quoted_injective in Ek. subst k.
      apply in_map_iff in Hk as [e [<- He]]. apply dict_items_in in He.
      destruct (proj1 (Hkeys (fst e)) (in_map fst _ _ He)) as [[] | H]. exact H.
  - intros b. unfold module_of. cbn [m_branches]. rewrite in_map_iff. split.
    + intros [[path variable] [<- He]]. apply dict_items_in in He.
      pose proof (in_dict_get _ _ _ Hnd He) as Hg. rewrite Hget in Hg. cbn [dict_get] in Hg.
      destruct (last_index path assets) as [j|] eqn:Hlast; [|discriminate].
      injection Hg as <-. exists path, j. now split.
    + intros [path [j [Hlast ->]]].
      exists (path, "data_" ++ format_06d (N.of_nat j)). split; [reflexivity|].
      apply dict_items_in, dict_get_in. rewrite Hget, Hlast. now rewrite N.add_0_l.
Qed.

Lemma dict_set_fresh (k v : string) (d : dict) :
  ~ In k (map fst d) -> dict_set k v d = (d ++ [(k, v)])%list.
Proof.
  induction d as [|[k' v'] d IH]; intros Hk; [reflexivity|].
  cbn [dict_set]. destruct (String.eqb_spec k' k) as [->|Hne].
  - exfalso. apply Hk. now left.
  - cbn [app]. rewrite IH; [reflexivity|]. intros Hin. apply Hk. now right.
Qed.

Lemma index_from_nodup (assets : list (string * bytes)) : forall count index,
  NoDup (map fst index ++ map fst assets)%list ->
  index_from count assets index = (index ++ entries_from count assets)%list.
Proof.
  induction assets as [|[p c] assets IH]; intros count index Hnd.
  - simpl. now rewrite app_nil_r.
  - cbn [index_from entries_from]. cbn [map fst] in Hnd.
    rewrite dict_set_fresh.
    + rewrite IH.
      * now rewrite <- app_assoc.
      * rewrite map_app. cbn [map fst]. rewrite <- app_assoc. exact Hnd.
    + apply NoDup_remove_2 in Hnd. intros Hin. apply Hnd, in_or_app. now left.
Qed.

Lemma nth_error_entries_from (assets : list (string * bytes)) : forall count j path content,
  nth_error assets j = Some (path, content) ->
  nth_error (entries_from count assets) j
  = Some (path, "data_" ++ format_06d (count + N.of_nat j)).
Proof.
  induction assets as [|[p c] assets IH]; intros count j path content Hnth.
  - now destruct j.
  - destruct j as [|j]; cbn [entries_from nth_error].
    + injection Hnth as -> _. simpl N.of_nat. now rewrite N.add_0_r.
    + replace (count + N.of_nat (S j))%N with (count + 1 + N.of_nat j)%N by lia.
      apply (IH _ _ _ _ Hnth).
Qed.

Lemma length_entries_from (assets : list (string * bytes)) : forall count,
  List.length (entries_from count assets) = List.length assets.
Proof.
  induction assets as [|[p c] assets IH]; intros count; [reflexivity|].
  cbn [entries_from List.length]. now rewrite IH.
Qed.

Lemma dict_items_insertion_order (rank : string -> N) (d : dict) :
  (forall k k', rank k = rank k') -> dict_items rank d = d.
Proof.
  intros Hconst. induction d as [|e d IH]; [reflexivity|].
  cbn [dict_items]. rewrite IH. destruct d as [|e' d']; [reflexivity|].
  cbn [insert_by_rank]. rewrite (Hconst (fst e) (fst e')), N.leb_refl. reflexivity.
Qed.

(** X6.  Where [items()] yields the insertion order, as from Python 3.7 on,
    and the relative paths are distinct, the dispatch routine of a run that
    ends normally follows the order of the traversal: it has as many
    conditionals as there are files, and the one at position [j] compares
    with the path of the [j]-th file and passes the variable numbered [j]. *)
Theorem conditionals_in_traversal_order os (argv : list string) (s : store) assets
    j path content :
  (forall k k', items_rank k = items_rank k') ->
  List.length argv = 3%nat ->
  os_path_isdir os (nth 1 argv EmptyString) = true ->
  os_open_w os (nth 2 argv EmptyString) = true ->
  read_assets os (nth 1 argv EmptyString) = Some assets ->
  forallb (fun asset => os_encodable os (fst asset)) assets = true ->
  NoDup (map fst assets) ->
  nth_error assets j = Some (path, content) ->
  file_content (snd (main os argv s)) (nth 2 argv EmptyString)
  = Some (render (module_of assets))
  /\ List.length (m_branches (module_of assets)) = List.length assets
  /\ nth_error (m_branches (module_of assets)) j
     = Some (mkBranch (quoted path)
                      ("data_" ++ format_06d (N.of_nat j))
                      ("data_" ++ format_06d (N.of_nat j)) 1
                      (("data_" ++ format_06d (N.of_nat j)) ++ "_md5")).
Proof.
  intros Hrank Hlen Hdir Hopen Hread Henc Hnd Hnth.
  split.
  - rewrite (main_writes_module os argv s assets Hlen Hdir Hopen Hread Henc). cbn [snd].
    apply file_content_last.
  - unfold module_of. cbn [m_branches].
    rewrite (dict_items_insertion_order _ _ Hrank), (index_from_nodup assets 0 [] Hnd).
    cbn [app]. split.
    + now rewrite length_map, length_entries_from.
    + rewrite nth_error_map, (nth_error_entries_from assets 0 j path content Hnth).
      reflexivity.
Qed.



Lemma line_widths_from_literal_char (c : byte) (rest : string) (width : nat) :
  line_widths_from (literal_char c ++ rest) width
  = line_widths_from rest (String.length (literal_char c) + width).
Proof. destruct c; reflexivity. Qed.

Lemma length_literal_char (c : byte) : (String.length (literal_char c) <= 4)%nat.
Proof. destruct c; cbv; repeat constructor. Qed.

Lemma line_widths_literal_text (content : bytes) : forall column width,
  (column < 120)%nat ->
  (width <= 3 + 4 * column)%nat ->
  Forall (fun w => (w <= 484)%nat) (line_widths_from (literal_text content column) width)
  /\ List.length (line_widths_from (literal_text content column) width)
     = ((column + List.length content) / 120 + 1)%nat.
Proof.
  induction content as [|c content IH]; intros column width Hcol Hwidth.
  - cbn [literal_text line_widths_from List.length]. split.
    + constructor; [lia | constructor].
    + rewrite Nat.add_0_r, Nat.div_small by exact Hcol. reflexivity.
  - cbn [literal_text]. rewrite line_widths_from_literal_char.
    pose proof (length_literal_char c) as Hc.
    destruct (Nat.leb_spec 120 (column + 1)) as [Hwrap | Hstay].
    + change (line_widths_from
                ((str dquote ++ nl ++ "  " ++ str dquote ++ literal_text content 0))
                (String.length (literal_char c) + width))
        with (S (String.length (literal_char c) + width)
              :: line_widths_from (literal_text content 0) 3).
      destruct (IH 0%nat 3%nat ltac:(lia) ltac:(lia)) as [Hall Hlen]. split.
      * constructor; [lia | exact Hall].
      * cbn [List.length]. rewrite Hlen.
        replace (column + S (List.length content))%nat
          with (1 * 120 + List.length content)%nat by lia.
        rewrite Nat.div_add_l by discriminate. cbn [Nat.add]. lia.
    + destruct (IH (column + 1)%nat (String.length (literal_char c) + width)%nat
                  ltac:(lia) ltac:(lia)) as [Hall Hlen].
      split; [exact Hall|]. rewrite Hlen. cbn [List.length]. do 2 f_equal. lia.
Qed.

(** X8.  The text [EncodeFileAsCString] writes between the quotes of a blob of
    [n] bytes has [n / 120] line breaks, one after every full group of 120
    bytes, also when no byte follows the last group; and no line of it is
    wider than 484 characters. *)
Theorem literal_lines_are_bounded (content : bytes) (h : nat) :
  exists text,
    emits h (encode_loop h content 0) tt text
    /\ List.length (line_widths text) = (List.length content / 120 + 1)%nat
    /\ Forall (fun width => (width <= 484)%nat) (line_widths text).
Proof.
  exists (literal_text content 0). split; [apply emits_encode_loop|].
  destruct (line_widths_literal_text content 0 0 ltac:(lia) ltac:(lia)) as [Hall Hlen].
  split; [exact Hlen | exact Hall].
Qed.

Lemma all_chars_app (P : ascii -> bool) (a b : string) :
  all_chars P (a ++ b) = all_chars P a && all_chars P b.
Proof.
  induction a as [|x a IH]; [reflexivity|].
  cbn [append all_chars]. now rewrite IH, andb_assoc.
Qed.

Lemma literal_char_source_chars (c : byte) :
  all_chars literal_source_char (literal_char c) = true.
Proof. destruct c; reflexivity. Qed.

Lemma literal_text_source_chars (content : bytes) : forall column,
  all_chars literal_source_char (literal_text content column) = true.
Proof.
  induction content as [|c content IH]; intros column; [reflexivity|].
  cbn [literal_text]. rewrite all_chars_app, literal_char_source_chars.
  destruct (120 <=? column + 1)%nat.
  - rewrite !all_chars_app, IH. reflexivity.
  - apply IH.
Qed.

(** X9.  Whatever the bytes of the blob, the array declaration that
    [EncodeFileAsCString] writes for it after the name of the variable holds
    only printable ASCII characters and line feeds, and no question mark: the
    generated text does not depend on a character encoding and cannot form a
    trigraph. *)
Theorem array_declaration_is_plain_ascii (content : bytes) (variable : string) (h : nat) :
  exists text,
    emits h (EncodeFileAsCString h variable content) tt
      ("static const uint8_t " ++ variable ++ text)
    /\ all_chars literal_source_char text = true
    /\ occurs "?" text = false.
Proof.
  exists ("[" ++ format_d (len content + 1) ++ "] = " ++ nl ++ "  "
          ++ quoted (literal_text content 0) ++ ";" ++ nl ++ nl).
  split; [|split].
  - eapply emits_eq; [apply emits_EncodeFileAsCString | reflexivity].
  - assert (Hd : forall d, all_chars literal_source_char (NilEmpty.string_of_uint d) = true)
      by (induction d; cbn; auto).
    unfold quoted. rewrite !all_chars_app, literal_text_source_chars.
    unfold format_d, NilZero.string_of_uint.
    destruct (N.to_uint (len content + 1)); try (rewrite Hd); reflexivity.
  - assert (Hd : forall d, occurs "?" (NilEmpty.string_of_uint d) = false)
      by (induction d; cbn; auto).
    unfold quoted. rewrite !occurs_app, literal_text_no_question_mark.
    unfold format_d, NilZero.string_of_uint.
    destruct (N.to_uint (len content + 1)); try (rewrite Hd); reflexivity.
Qed.

Lemma hex_byte_injective (a b : byte) : hex_byte a = hex_byte b -> a = b.
Proof.
  set (back := fun text : string =>
                 match text with
                 | String x (String y _) =>
                     match hex_value x, hex_value y with
                     | Some hi, Some lo => Byte.of_N (16 * hi + lo)
                     | _, _ => None
                     end
                 | _ => None
                 end).
  assert (Hback : forall c, back (hex_byte c) = Some c) by (destruct c; reflexivity).
  intros E. apply (f_equal back) in E. rewrite !Hback in E. now injection E.
Qed.

Lemma join_hex_injective (l l' : bytes) :
  join (map hex_byte l) = join (map hex_byte l') -> l = l'.
Proof.
  revert l'. induction l as [|a l IH]; intros [|b l'] E.
  - reflexivity.
  - discriminate E.
  - discriminate E.
  - change (String (hex_digit (Byte.to_N a / 16))
              (String (hex_digit (Byte.to_N a mod 16)) (join (map hex_byte l)))
            = String (hex_digit (Byte.to_N b / 16))
                (String (hex_digit (Byte.to_N b mod 16)) (join (map hex_byte l')))) in E.
    injection E as E1 E2 E3. rewrite (IH _ E3). f_equal.
    apply hex_byte_injective. unfold hex_byte. now rewrite E1, E2.
Qed.

Lemma hex_byte_lower (b : byte) : all_chars lower_hex_char (hex_byte b) = true.
Proof. destruct b; reflexivity. Qed.

(** X10.  The checksum string [WriteChecksum] embeds has two characters per
    byte of the digest, all of them digits or lower-case letters a to f, and
    it determines the digest: two contents get the same string exactly when
    their digests are equal. *)
Theorem checksum_string_is_lowercase_hex (content content' : bytes) :
  all_chars lower_hex_char (hexdigest content) = true
  /\ String.length (hexdigest content) = (2 * List.length (md5 content))%nat
  /\ (hexdigest content = hexdigest content' <-> md5 content = md5 content').
Proof.
  split; [|split].
  - unfold hexdigest. induction (md5 content) as [|b l IH]; [reflexivity|].
    change (join (map hex_byte (b :: l))) with (hex_byte b ++ join (map hex_byte l)).
    now rewrite all_chars_app, hex_byte_lower, IH.
  - apply length_hexdigest.
  - unfold hexdigest. split; [apply join_hex_injective | now intros ->].
Qed.

(** X11.  When the decompression of the blob of the requested path throws,
    the lookup ends with that very error: the checksum is not computed and
    the conditionals that follow are not tried. *)
Theorem decompression_error_propagates (before after : list branch_code) (b : branch_code)
    (path : bytes) (e : ErrorCode) :
  Forall (fun b' => bc_path b' <> path) before ->
  bc_path b = path ->
  GzipUncompress (bc_data b) = Throws e ->
  dispatch (before ++ b :: after) path = Throws e.
Proof.
  intros Hbefore Hpath Hgz.
  induction Hbefore as [|b' before Hb' _ IH]; cbn [app dispatch].
  - rewrite <- Hpath, bytes_eqb_refl. unfold Uncompress. now rewrite Hgz.
  - rewrite bytes_eqb_neq by (intros E; now apply Hb'). exact IH.
Qed.

Lemma update_nth_same {A} (f : A -> A) (l : list A) : forall n x,
  nth_error l n = Some x -> f x = x -> update_nth n f l = l.
Proof.
  induction l as [|y l IH]; intros n x Hnth Hfx; [now destruct n|].
  destruct n as [|n]; cbn [update_nth nth_error] in *.
  - injection Hnth as ->. now rewrite Hfx.
  - now rewrite (IH _ _ Hnth Hfx).
Qed.

Lemma update_nth_twice {A} (f g : A -> A) (l : list A) : forall n,
  update_nth n g (update_nth n f l) = update_nth n (fun x => g (f x)) l.
Proof.
  induction l as [|y l IH]; intros n; [now destruct n|].
  destruct n as [|n]; cbn [update_nth]; [reflexivity | now rewrite IH].
Qed.

Lemma update_nth_ext {A} (f g : A -> A) (l : list A) : forall n,
  (forall x, f x = g x) -> update_nth n f l = update_nth n g l.
Proof.
  induction l as [|y l IH]; intros n Hfg; [now destruct n|].
  destruct n as [|n]; cbn [update_nth]; [now rewrite Hfg | now rewrite (IH _ Hfg)].
Qed.

Lemma nth_error_update_nth_same {A} (f : A -> A) (l : list A) : forall n x,
  nth_error l n = Some x -> nth_error (update_nth n f l) n = Some (f x).
Proof.
  induction l as [|y l IH]; intros n x Hnth; [now destruct n|].
  destruct n as [|n]; cbn [update_nth nth_error] in *.
  - now injection Hnth as ->.
  - now apply IH.
Qed.

Lemma appends_ret {A} f (a : A) : appends f (ret a) a EmptyString.
Proof.
  intros s fo Hfo _. unfold ret. f_equal. destruct s as [files g]. cbn [st_files st_g] in *.
  f_equal. symmetry. apply (update_nth_same _ _ _ _ Hfo).
  destruct fo. unfold append_data. cbn. now rewrite string_app_nil_r.
Qed.

Lemma appends_bind {A B} f (c : Py A) (k : A -> Py B) a b t1 t2 :
  appends f c a t1 -> appends f (k a) b t2 -> appends f (bind c k) b (t1 ++ t2).
Proof.
  intros Hc Hk s fo Hfo Hopen. unfold bind. rewrite (Hc s fo Hfo Hopen).
  rewrite (Hk _ (append_data t1 fo)); cbn [st_files st_g].
  - rewrite update_nth_twice. do 2 f_equal. apply update_nth_ext.
    intros x. unfold append_data. cbn. now rewrite string_app_assoc.
  - now apply nth_error_update_nth_same.
  - exact Hopen.
Qed.

Lemma appends_eq {A} f (c : Py A) a t t' : appends f c a t -> t = t' -> appends f c a t'.
Proof. now intros H <-. Qed.

Lemma appends_write f text : appends f (write f text) tt text.
Proof. intros s fo Hfo Hopen. unfold write. now rewrite Hfo, Hopen. Qed.

Lemma appends_encode_loop f (content : bytes) : forall column,
  appends f (encode_loop f content column) tt (literal_text content column).
Proof.
  induction content as [|c content IH]; intros column.
  - apply appends_ret.
  - cbn [encode_loop literal_text]. eapply appends_bind.
    + unfold literal_char.
      destruct ((Byte.to_N c <? 32)%N || (127 <=? Byte.to_N c)%N || (Byte.to_N c =? ord "?")%N);
        [apply appends_write|].
      destruct (existsb (N.eqb (Byte.to_N c)) [ord dquote; ord backslash]); apply appends_write.
    + destruct (120 <=? column + 1)%nat.
      * eapply appends_eq; [eapply appends_bind; [apply appends_write | apply IH]|].
        now rewrite !string_app_assoc.
      * apply IH.
Qed.

(** X12.  [EncodeFileAsCString] writes to the file object it is given, and to
    no other, whatever the global [g] is bound to, also when it is unbound:
    on an open file object it appends the whole declaration; on a closed one
    it raises a [ValueError] at its first write and nothing is written. *)
Theorem EncodeFileAsCString_writes_to_its_file (f : nat) (variable : string)
    (content : bytes) (s : store) (fo : file_object) :
  nth_error (st_files s) f = Some fo ->
  (fo_closed fo = false ->
   EncodeFileAsCString f variable content s
   = (inr tt,
      mkStore (update_nth f
                 (append_data
                    (render_decl (ArrayDecl variable (len content + 1)
                                            (quoted (literal_text content 0)))))
                 (st_files s))
              (st_g s)))
  /\ (fo_closed fo = true ->
      EncodeFileAsCString f variable content s
      = (inl (ValueError "I/O operation on closed file."), s))
  /\ (forall f', f' <> f ->
        nth_error (st_files (snd (EncodeFileAsCString f variable content s))) f'
        = nth_error (st_files s) f').
Proof.
  intros Hfo.
  assert (Hopen : fo_closed fo = false ->
                  EncodeFileAsCString f variable content s
                  = (inr tt,
                     mkStore (update_nth f
                                (append_data
                                   (render_decl (ArrayDecl variable (len content + 1)
                                                   (quoted (literal_text content 0)))))
                                (st_files s))
                             (st_g s))).
  { intros Hop. refine (_ s fo Hfo Hop). unfold EncodeFileAsCString. eapply appends_eq.
    - eapply appends_bind; [apply appends_write|].
      eapply appends_bind; [apply appends_encode_loop | apply appends_write].
    - unfold render_decl, quoted. now rewrite !string_app_assoc. }
  assert (Hclosed : fo_closed fo = true ->
                    EncodeFileAsCString f variable content s
                    = (inl (ValueError "I/O operation on closed file."), s)).
  { intros Hcl. unfold EncodeFileAsCString, bind, write. now rewrite Hfo, Hcl. }
  split; [exact Hopen|]. split; [exact Hclosed|].
  intros f' Hne. destruct (fo_closed fo) eqn:Hc.
  - now rewrite (Hclosed eq_refl).
  - rewrite (Hopen eq_refl). cbn [snd st_files].
    apply nth_error_update_nth_other. intros E. apply Hne. now symmetry.
Qed.

(** X13.  Whatever the unit holds, also a corrupted one, the lookup never
    returns data that did not pass the check: what it returns is the
    decompressed blob of a conditional whose path is the request, and its
    digest equals the checksum embedded with that conditional. *)
Theorem returned_data_passed_the_check (code : list branch_code) (path target : bytes) :
  dispatch code path = Returns target ->
  exists b,
    In b code
    /\ bc_path b = path
    /\ GzipUncompress (bc_data b) = Returns target
    /\ ComputeMD5 target = bc_md5 b.
Proof.
  induction code as [|b code IH]; cbn [dispatch]; [discriminate|].
  destruct (bytes_eqb path (bc_path b)) eqn:Hpath.
  - intros Hret. exists b. apply bytes_eqb_eq in Hpath.
    unfold Uncompress in Hret.
    destruct (GzipUncompress (bc_data b)) as [t|e] eqn:Hgz; [|discriminate].
    destruct (bytes_eqb (ComputeMD5 t) (bc_md5 b)) eqn:Hmd5; cbn [negb] in Hret;
      [|discriminate].
    injection Hret as ->. apply bytes_eqb_eq in Hmd5.
    split; [now left|]. split; [now symmetry|]. split; [reflexivity | exact Hmd5].
  - intros Hret. destruct (IH Hret) as [b' [Hin H]]. exists b'. split; [now right | exact H].
Qed.

(** ** The claims on the generated routines *)

(** C4.  When the conditional of the requested path is reached and the
    decompression of its blob yields [target], the lookup throws
    [ErrorCode_CorruptedFile] exactly when the digest computed from [target]
    differs from the embedded checksum string, and returns [target] exactly
    when they are equal; that code is not the one of an unknown path. *)
Theorem checksum_mismatch_is_corruption (before after : list branch_code) (b : branch_code)
    (path target : bytes) :
  Forall (fun b' => bc_path b' <> path) before ->
  bc_path b = path ->
  GzipUncompress (bc_data b) = Returns target ->
  (dispatch (before ++ b :: after) path = Throws ErrorCode_CorruptedFile
   <-> ComputeMD5 target <> bc_md5 b)
  /\ (dispatch (before ++ b :: after) path = Returns target
      <-> ComputeMD5 target = bc_md5 b)
  /\ Uncompress (bc_data b) (bc_md5 b) = dispatch (before ++ b :: after) path
  /\ ErrorCode_CorruptedFile <> ErrorCode_InexistentItem.
Proof.
  intros Hbefore Hpath Hgz.
  assert (E : dispatch (before ++ b :: after) path = Uncompress (bc_data b) (bc_md5 b)).
  { induction Hbefore as [|b' before Hb' _ IH]; cbn [app dispatch].
    - now rewrite <- Hpath, bytes_eqb_refl.
    - rewrite bytes_eqb_neq by (intros E; now apply Hb'). exact IH. }
  rewrite E. unfold Uncompress. rewrite Hgz.
  destruct (bytes_eqb (ComputeMD5 target) (bc_md5 b)) eqn:Heq; cbn [negb].
  - apply bytes_eqb_eq in Heq. repeat split; try congruence; try discriminate.
  - assert (Hne : ComputeMD5 target <> bc_md5 b).
    { intros Heq'. apply bytes_eqb_eq in Heq'. congruence. }
    repeat split; try congruence; try discriminate.
Qed.

(** C1, at a path with a backslash.  The path is written into the dispatch
    literal as it stands, where [EncodeFileAsCString] escapes the backslash;
    backslash-b then denotes a backspace, and the file is not found under its
    own relative path. *)
Theorem backslash_path_is_not_found :
  ReadStaticAsset (module_of [("sub\b.bin", [x00; x3f; x22; x5c])])
                  (list_byte_of_string "sub\b.bin")
  = Some (Throws ErrorCode_InexistentItem).
Proof.
  unfold ReadStaticAsset, compile. unfold module_of at 1 2. cbn [m_decls].
  rewrite decls_from_ok, decls_from_distinct. cbn [andb]. unfold module_of.
  cbn [m_decls m_branches index_from dict_set dict_items insert_by_rank map fst snd
       compile_branches].
  pose proof (compile_branch_variable [("sub\b.bin", [x00; x3f; x22; x5c])] 0 _ _
                (quoted "sub\b.bin") [x73; x75; x62; x08; x2e; x62; x69; x6e]
                eq_refl eq_refl) as Hb.
  cbn [N.of_nat] in Hb. unfold branch_of. cbn [fst snd]. rewrite Hb. reflexivity.
Qed.

(** C3, at the same source tree.  The path with a backspace in place of
    backslash-b is not in the tree, and its lookup returns the content of the
    file whose path holds the backslash. *)
Theorem absent_path_returns_an_asset :
  (forall count content, GzipUncompress (gzip_compress count content) = Returns content) ->
  (forall content, ComputeMD5 content = list_byte_of_string (hexdigest content)) ->
  let tree := [("sub\b.bin", [x00; x3f; x22; x5c])] in
  let path := String "s" (String "u" (String "b" (String "008" ".bin"))) in
  ~ In path (map fst tree)
  /\ ReadStaticAsset (module_of tree) (list_byte_of_string path)
     = Some (Returns [x00; x3f; x22; x5c]).
Proof.
  intros Hgz Hmd5 tree path. split.
  - intros [E | []]. discriminate E.
  - unfold ReadStaticAsset, compile. unfold module_of at 1 2. cbn [m_decls].
    subst tree. rewrite decls_from_ok, decls_from_distinct. cbn [andb]. unfold module_of.
    cbn [m_decls m_branches index_from dict_set dict_items insert_by_rank map fst snd
         compile_branches].
    pose proof (compile_branch_variable [("sub\b.bin", [x00; x3f; x22; x5c])] 0 _ _
                  (quoted "sub\b.bin") [x73; x75; x62; x08; x2e; x62; x69; x6e]
                  eq_refl eq_refl) as Hb.
    cbn [N.of_nat] in Hb. unfold branch_of. cbn [fst snd]. rewrite Hb.
    cbn [dispatch bc_path bc_data bc_md5 c_str Byte.eqb].
    change (bytes_eqb (list_byte_of_string path) _) with true. cbn iota.
    unfold Uncompress. rewrite Hgz, Hmd5. now rewrite bytes_eqb_refl.
Qed.

End Embed.

(** ** Instances with the stand-in collaborators

    Each hypothesis of the statements above is met at a concrete input. *)

(** The run on the scenario folder: the checksum constant of the second
    file, of its four original bytes, follows the array of its six compressed
    bytes in the target. *)
Lemma checksum_of_original_bytes_witness :
  exists before after,
    file_content
      (snd (main (fun _ => store_compress) sum_digest (fun _ => 0%N) (scenario_os true)
                 ["embed.py"; "src"; "out.cpp"] (mkStore [] None)))
      "out.cpp"
    = Some (before
            ++ render_decl (ArrayDecl "data_000001" 7
                              (quoted (literal_text [x1f; x8b; x00; x3f; x22; x5c] 0)))
            ++ ("static const char* data_000001_md5 = "
                ++ quoted "bdbdbdbdbdbdbdbdbdbdbdbdbdbdbdbd" ++ ";" ++ nl ++ nl)
            ++ after).
Proof.
  exact (proj1 (proj2
           (checksum_of_original_bytes (fun _ => store_compress) sum_digest (fun _ => 0%N)
              (scenario_os true) ["embed.py"; "src"; "out.cpp"] (mkStore [] None)
              [("a.txt", [x68; x65; x6c; x6c; x6f]); ("sub/b.bin", [x00; x3f; x22; x5c])]
              1 "sub/b.bin" [x00; x3f; x22; x5c]
              eq_refl eq_refl eq_refl eq_refl eq_refl eq_refl))).
Defined.

(** The run on the scenario folder: the conditional of the second file, as
    the script prints it, passes the six compressed bytes of the array
    declared with size seven. *)
Lemma sizeof_minus_one_is_compressed_length_witness :
  (forall h,
     emits h (dispatch_body (scenario_os true) ("sub/b.bin", "data_000001") tt) tt
       ("  if (path == " ++ quoted "sub/b.bin" ++ ")" ++ nl
        ++ "  {" ++ nl
        ++ "    Uncompress(target, data_000001, sizeof(data_000001) - 1, data_000001_md5);"
        ++ nl ++ "    return;" ++ nl ++ "  }" ++ nl ++ nl))
  /\ compile_branch
       (m_decls (module_of (fun _ => store_compress) sum_digest (fun _ => 0%N)
                   [("a.txt", [x68; x65; x6c; x6c; x6f]);
                    ("sub/b.bin", [x00; x3f; x22; x5c])]))
       (mkBranch (quoted "sub/b.bin") "data_000001" "data_000001" 1 "data_000001_md5")
     = Some (mkCode (list_byte_of_string "sub/b.bin") [x1f; x8b; x00; x3f; x22; x5c]
                    (list_byte_of_string "bdbdbdbdbdbdbdbdbdbdbdbdbdbdbdbd")).
Proof.
  assert (Hnd : NoDup (map fst [("a.txt", [x68; x65; x6c; x6c; x6f]);
                                ("sub/b.bin", [x00; x3f; x22; x5c])])).
  { repeat constructor; [intros [E | []]; discriminate E | intros []]. }
  pose proof (sizeof_minus_one_is_compressed_length
                (fun _ => store_compress) sum_digest (fun _ => 0%N)
                (scenario_os true) ["embed.py"; "src"; "out.cpp"] (mkStore [] None)
                [("a.txt", [x68; x65; x6c; x6c; x6f]); ("sub/b.bin", [x00; x3f; x22; x5c])]
                1 "sub/b.bin" [x00; x3f; x22; x5c] (list_byte_of_string "sub/b.bin")
                eq_refl eq_refl eq_refl eq_refl eq_refl Hnd eq_refl eq_refl) as H.
  split.
  - exact (proj1 (proj2 (proj2 (proj2 (proj2 H))))).
  - exact (proj1 (proj2 (proj2 (proj2 (proj2 (proj2 (proj2 (proj2 H)))))))).
Defined.

(** Two arguments instead of three, and a source folder that does not exist. *)
Lemma main_fails_before_output_witness :
  (exists msg,
     main (fun _ => store_compress) sum_digest (fun _ => 0%N)
          (mkOS (fun p => String.eqb p "src") (fun _ => []) append (fun p _ => p)
                (fun _ => None) (fun _ => true) (fun _ => true))
          ["embed.py"; "src"] (mkStore [] None)
     = (inl (Exception msg), mkStore [] None))
  /\ (exists msg,
        main (fun _ => store_compress) sum_digest (fun _ => 0%N)
             (mkOS (fun p => String.eqb p "src") (fun _ => []) append (fun p _ => p)
                   (fun _ => None) (fun _ => true) (fun _ => true))
             ["embed.py"; "missing"; "out.cpp"] (mkStore [] None)
        = (inl (Exception msg), mkStore [] None)).
Proof.
  split.
  - destruct (main_fails_before_output (fun _ => store_compress) sum_digest (fun _ => 0%N)
                (mkOS (fun p => String.eqb p "src") (fun _ => []) append (fun p _ => p)
                      (fun _ => None) (fun _ => true) (fun _ => true))
                ["embed.py"; "src"] (mkStore [] None)
                (or_introl (fun E : 2%nat = 3%nat => Nat.neq_succ_diag_l 2 (eq_sym E))))
      as [msg [H _]].
    exists msg. exact H.
  - destruct (main_fails_before_output (fun _ => store_compress) sum_digest (fun _ => 0%N)
                (mkOS (fun p => String.eqb p "src") (fun _ => []) append (fun p _ => p)
                      (fun _ => None) (fun _ => true) (fun _ => true))
                ["embed.py"; "missing"; "out.cpp"] (mkStore [] None)
                (or_intror eq_refl))
      as [msg [H _]].
    exists msg. exact H.
Defined.

(** Called with the file object 0 while [g] is the file object 1: the text
    goes to 1; and called while [g] is unbound. *)
Lemma WriteChecksum_writes_to_global_g_witness :
  WriteChecksum sum_digest 0 "data_000000_md5" [x68; x65; x6c; x6c; x6f]
    (mkStore [mkFile "other.txt" false EmptyString; mkFile "out.cpp" false EmptyString]
             (Some 1%nat))
  = (inr tt,
     mkStore [mkFile "other.txt" false EmptyString;
              mkFile "out.cpp" false
                (render_decl (CStrDecl "data_000000_md5"
                                (quoted "14141414141414141414141414141414")))]
             (Some 1%nat))
  /\ WriteChecksum sum_digest 0 "data_000000_md5" [x68; x65; x6c; x6c; x6f]
       (mkStore [mkFile "other.txt" false EmptyString] None)
     = (inl (NameError "g"), mkStore [mkFile "other.txt" false EmptyString] None).
Proof.
  split.
  - exact (proj1 (proj1 (proj2 (proj2
             (WriteChecksum_writes_to_global_g sum_digest 0 "data_000000_md5"
                [x68; x65; x6c; x6c; x6f]
                (mkStore [mkFile "other.txt" false EmptyString;
                          mkFile "out.cpp" false EmptyString] (Some 1%nat)))))
             1%nat (mkFile "out.cpp" false EmptyString) eq_refl eq_refl eq_refl)).
  - exact (proj1 (proj2
             (WriteChecksum_writes_to_global_g sum_digest 0 "data_000000_md5"
                [x68; x65; x6c; x6c; x6f]
                (mkStore [mkFile "other.txt" false EmptyString] None)))
             eq_refl).
Defined.

(** The last digit of the embedded checksum of the second file changed. *)
Lemma checksum_mismatch_is_corruption_witness :
  dispatch store_uncompress (fun c => list_byte_of_string (hexdigest sum_digest c))
    [mkCode (list_byte_of_string "a.txt") [x1f; x8b; x68; x65; x6c; x6c; x6f]
            (list_byte_of_string "14141414141414141414141414141414");
     mkCode (list_byte_of_string "sub/b.bin") [x1f; x8b; x00; x3f; x22; x5c]
            (list_byte_of_string "bdbdbdbdbdbdbdbdbdbdbdbdbdbdbdbe")]
    (list_byte_of_string "sub/b.bin")
  = Throws ErrorCode_CorruptedFile.
Proof.
  refine (proj2 (proj1 (checksum_mismatch_is_corruption store_uncompress
                  (fun c => list_byte_of_string (hexdigest sum_digest c))
                  [mkCode (list_byte_of_string "a.txt") [x1f; x8b; x68; x65; x6c; x6c; x6f]
                          (list_byte_of_string "14141414141414141414141414141414")]
                  []
                  (mkCode (list_byte_of_string "sub/b.bin") [x1f; x8b; x00; x3f; x22; x5c]
                          (list_byte_of_string "bdbdbdbdbdbdbdbdbdbdbdbdbdbdbdbe"))
                  (list_byte_of_string "sub/b.bin") [x00; x3f; x22; x5c]
                  _ eq_refl eq_refl)) _).
  - repeat constructor. intros E. discriminate E.
  - intros E. discriminate E.
Defined.

(** The lookup of the absent path, with the stand-in collaborators. *)
Lemma absent_path_returns_an_asset_witness :
  ReadStaticAsset store_uncompress (fun c => list_byte_of_string (hexdigest sum_digest c))
    (module_of (fun _ => store_compress) sum_digest (fun _ => 0%N)
       [("sub\b.bin", [x00; x3f; x22; x5c])])
    (list_byte_of_string (String "s" (String "u" (String "b" (String "008" ".bin")))))
  = Some (Returns [x00; x3f; x22; x5c]).
Proof.
  exact (proj2 (absent_path_returns_an_asset (fun _ => store_compress) sum_digest
                  (fun _ => 0%N) store_uncompress
                  (fun c => list_byte_of_string (hexdigest sum_digest c))
                  (fun _ _ => eq_refl) (fun _ => eq_refl))).
Defined.

(** A blob of 122 bytes: one break, after the 120th byte. *)
Lemma wrapping_every_120_bytes_witness :
  List.length (repeat x00 120) = 120%nat
  /\ literal_text (repeat x00 120 ++ [x41; x42])%list 0
     = unwrapped_text (repeat x00 120) ++ line_break ++ unwrapped_text [x41; x42]
  /\ literal_text [x41; x42] 0 = unwrapped_text [x41; x42].
Proof.
  pose proof (wrapping_every_120_bytes [x41; x42] (repeat x00 120) [x41; x42] 0) as H.
  split; [reflexivity|]. split.
  - exact (proj2 (proj2 (proj2 (proj2 H))) eq_refl).
  - apply (proj1 (proj2 (proj2 (proj2 H)))). simpl. lia.
Defined.

(** The run on the scenario folder, every file readable. *)
Lemma successful_run_writes_the_unit_witness :
  file_content
    (snd (main (fun _ => store_compress) sum_digest (fun _ => 0%N) (scenario_os true)
               ["embed.py"; "src"; "out.cpp"] (mkStore [] None)))
    "out.cpp"
  = Some (render (module_of (fun _ => store_compress) sum_digest (fun _ => 0%N)
                    [("a.txt", [x68; x65; x6c; x6c; x6f]);
                     ("sub/b.bin", [x00; x3f; x22; x5c])])).
Proof.
  exact (proj1 (proj2 (successful_run_writes_the_unit
                         (fun _ => store_compress) sum_digest (fun _ => 0%N)
                         (scenario_os true) ["embed.py"; "src"; "out.cpp"]
                         (mkStore [] None)
                         [("a.txt", [x68; x65; x6c; x6c; x6f]);
                          ("sub/b.bin", [x00; x3f; x22; x5c])]
                         eq_refl eq_refl eq_refl eq_refl eq_refl))).
Defined.

(** The run on the scenario folder, the second file unreadable: the target
    holds the declarations of [a.txt] and no more. *)
Lemma unreadable_file_aborts_the_run_witness :
  main (fun _ => store_compress) sum_digest (fun _ => 0%N) (scenario_os false)
       ["embed.py"; "src"; "out.cpp"] (mkStore [] None)
  = (inl (OSError "src/sub/b.bin"),
     mkStore [mkFile "out.cpp" true
                (preamble
                 ++ join (map render_decl
                            (decls_from (fun _ => store_compress) sum_digest 0
                               [("a.txt", [x68; x65; x6c; x6c; x6f])])))]
             (Some 0%nat)).
Proof.
  exact (proj2 (unreadable_file_aborts_the_run
                  (fun _ => store_compress) sum_digest (fun _ => 0%N) (scenario_os false)
                  ["embed.py"; "src"; "out.cpp"] (mkStore [] None)
                  [("a.txt", [x68; x65; x6c; x6c; x6f])] "src/sub/b.bin"
                  eq_refl eq_refl eq_refl eq_refl)).
Defined.

(** The scenario, from the run of the script to the lookup of [sub/b.bin]. *)
Lemma end_to_end_round_trip_witness :
  exists m,
    file_content
      (snd (main (fun _ => store_compress) sum_digest (fun _ => 0%N) (scenario_os true)
                 ["embed.py"; "src"; "out.cpp"] (mkStore [] None)))
      "out.cpp"
    = Some (render m)
    /\ ReadStaticAsset store_uncompress
         (fun c => list_byte_of_string (hexdigest sum_digest c)) m
         (list_byte_of_string "sub/b.bin")
       = Some (Returns [x00; x3f; x22; x5c]).
Proof.
  apply (end_to_end_round_trip (fun _ => store_compress) sum_digest (fun _ => 0%N)
           store_uncompress (fun c => list_byte_of_string (hexdigest sum_digest c))
           (scenario_os true) ["embed.py"; "src"; "out.cpp"] (mkStore [] None)
           [("a.txt", [x68; x65; x6c; x6c; x6f]); ("sub/b.bin", [x00; x3f; x22; x5c])]
           "sub/b.bin" [x00; x3f; x22; x5c]
           (fun _ _ => eq_refl) (fun _ => eq_refl)
           eq_refl eq_refl eq_refl eq_refl eq_refl).
  - repeat constructor; [intros [E | []]; discriminate E | intros []].
  - reflexivity.
  - right. left. reflexivity.
Defined.

(** The scenario, from the run of the script to the request [missing.txt]. *)
Lemma request_of_no_file_is_not_found_witness :
  exists m,
    file_content
      (snd (main (fun _ => store_compress) sum_digest (fun _ => 0%N) (scenario_os true)
                 ["embed.py"; "src"; "out.cpp"] (mkStore [] None)))
      "out.cpp"
    = Some (render m)
    /\ ReadStaticAsset store_uncompress
         (fun c => list_byte_of_string (hexdigest sum_digest c)) m
         (list_byte_of_string "missing.txt")
       = Some (Throws ErrorCode_InexistentItem).
Proof.
  apply (request_of_no_file_is_not_found (fun _ => store_compress) sum_digest
           (fun _ => 0%N) store_uncompress
           (fun c => list_byte_of_string (hexdigest sum_digest c))
           (scenario_os true) ["embed.py"; "src"; "out.cpp"] (mkStore [] None)
           [("a.txt", [x68; x65; x6c; x6c; x6f]); ("sub/b.bin", [x00; x3f; x22; x5c])]
           (list_byte_of_string "missing.txt")
           eq_refl eq_refl eq_refl eq_refl eq_refl eq_refl).
  intros path [<- | [<- | []]]; intros E; discriminate E.
Defined.

(** The literals of the conditionals of the scenario run are distinct, with
    an order of [items()] that puts [sub/b.bin] first. *)
Lemma one_conditional_per_path_witness :
  NoDup (map br_literal
           (m_branches
              (module_of (fun _ => store_compress) sum_digest
                 (fun k => if String.eqb k "a.txt" then 1%N else 0%N)
                 [("a.txt", [x68; x65; x6c; x6c; x6f]);
                  ("sub/b.bin", [x00; x3f; x22; x5c])]))).
Proof.
  exact (proj1 (proj2 (one_conditional_per_path
                         (fun _ => store_compress) sum_digest
                         (fun k => if String.eqb k "a.txt" then 1%N else 0%N)
                         (scenario_os true) ["embed.py"; "src"; "out.cpp"]
                         (mkStore [] None)
                         [("a.txt", [x68; x65; x6c; x6c; x6f]);
                          ("sub/b.bin", [x00; x3f; x22; x5c])]
                         eq_refl eq_refl eq_refl eq_refl eq_refl))).
Defined.

(** The second conditional of the scenario run, in insertion order. *)
Lemma conditionals_in_traversal_order_witness :
  nth_error
    (m_branches (module_of (fun _ => store_compress) sum_digest (fun _ => 0%N)
                   [("a.txt", [x68; x65; x6c; x6c; x6f]);
                    ("sub/b.bin", [x00; x3f; x22; x5c])])) 1
  = Some (mkBranch (quoted "sub/b.bin") "data_000001" "data_000001" 1 "data_000001_md5").
Proof.
  refine (proj2 (proj2 (conditionals_in_traversal_order
                          (fun _ => store_compress) sum_digest (fun _ => 0%N)
                          (scenario_os true) ["embed.py"; "src"; "out.cpp"]
                          (mkStore [] None)
                          [("a.txt", [x68; x65; x6c; x6c; x6f]);
                           ("sub/b.bin", [x00; x3f; x22; x5c])]
                          1 "sub/b.bin" [x00; x3f; x22; x5c]
                          (fun _ _ => eq_refl)
                          eq_refl eq_refl eq_refl eq_refl eq_refl _ eq_refl))).
  repeat constructor; [intros [E | []]; discriminate E | intros []].
Defined.


(** A blob whose first byte was changed: the stand-in decompressor throws. *)
Lemma decompression_error_propagates_witness :
  dispatch store_uncompress (fun c => list_byte_of_string (hexdigest sum_digest c))
    [mkCode (list_byte_of_string "a.txt") [x1f; x8b; x68; x65; x6c; x6c; x6f]
            (list_byte_of_string "14141414141414141414141414141414");
     mkCode (list_byte_of_string "sub/b.bin") [x1e; x8b; x00; x3f; x22; x5c]
            (list_byte_of_string "bdbdbdbdbdbdbdbdbdbdbdbdbdbdbdbd")]
    (list_byte_of_string "sub/b.bin")
  = Throws (ErrorCode_Other 0).
Proof.
  refine (decompression_error_propagates store_uncompress
            (fun c => list_byte_of_string (hexdigest sum_digest c))
            [mkCode (list_byte_of_string "a.txt") [x1f; x8b; x68; x65; x6c; x6c; x6f]
                    (list_byte_of_string "14141414141414141414141414141414")]
            []
            (mkCode (list_byte_of_string "sub/b.bin") [x1e; x8b; x00; x3f; x22; x5c]
                    (list_byte_of_string "bdbdbdbdbdbdbdbdbdbdbdbdbdbdbdbd"))
            (list_byte_of_string "sub/b.bin") (ErrorCode_Other 0) _ eq_refl eq_refl).
  repeat constructor. intros E. discriminate E.
Defined.

(** Written to the file object 1 while [g] is unbound; the file object 0 is
    as it was. *)
Lemma EncodeFileAsCString_writes_to_its_file_witness :
  EncodeFileAsCString 1 "data_000000" [x68; x3f]
    (mkStore [mkFile "other.txt" false EmptyString; mkFile "out.cpp" false EmptyString] None)
  = (inr tt,
     mkStore [mkFile "other.txt" false EmptyString;
              mkFile "out.cpp" false
                (render_decl (ArrayDecl "data_000000" 3 (quoted (literal_text [x68; x3f] 0))))]
             None).
Proof.
  exact (proj1 (EncodeFileAsCString_writes_to_its_file 1 "data_000000" [x68; x3f]
                  (mkStore [mkFile "other.txt" false EmptyString;
                            mkFile "out.cpp" false EmptyString] None)
                  (mkFile "out.cpp" false EmptyString) eq_refl)
               eq_refl).
Defined.

(** What the lookup of [a.txt] returns has the embedded checksum. *)
Lemma returned_data_passed_the_check_witness :
  exists b,
    In b [mkCode (list_byte_of_string "a.txt") [x1f; x8b; x68; x65; x6c; x6c; x6f]
                 (list_byte_of_string "14141414141414141414141414141414")]
    /\ bc_path b = list_byte_of_string "a.txt"
    /\ store_uncompress (bc_data b) = Returns [x68; x65; x6c; x6c; x6f]
    /\ list_byte_of_string (hexdigest sum_digest [x68; x65; x6c; x6c; x6f]) = bc_md5 b.
Proof.
  exact (returned_data_passed_the_check store_uncompress
           (fun c => list_byte_of_string (hexdigest sum_digest c))
           [mkCode (list_byte_of_string "a.txt") [x1f; x8b; x68; x65; x6c; x6c; x6f]
                   (list_byte_of_string "14141414141414141414141414141414")]
           (list_byte_of_string "a.txt") [x68; x65; x6c; x6c; x6f] eq_refl).
Defined.
